(** * dav-compression: the adaptive transcoding pipeline of [app.py]

    A shallow embedding of the parts of [src/app.py] that decide encoder
    settings, supervise the encoder process, throttle it, choose the scan
    strategy and interleave the pending files across camera folders,
    together with the properties of these parts.

    Conventions.
    - Python [float] is IEEE-754 binary64; it is modelled by the Standard
      Library's executable specification [spec_float] at precision 53 and
      maximal exponent 1024, so products such as [700 * 0.7] round exactly
      as they do in Python.
    - Python [str] is modelled by [string] (bytes); the inputs are taken
      to be ASCII, on which the byte order is the code-point order.
    - Python [int] is [Z].
    - A [dict] whose insertion order is observed is an association list;
      one that is only looked up and updated is a [gmap]. *)

From Stdlib Require Import ZArith String Ascii List Bool Lia.
From Stdlib Require Import Floats.SpecFloat DecimalString.
From Stdlib Require DecimalPos.
From stdpp Require Import base list gmap strings sorting.

Open Scope Z_scope.

(* ===================================================================== *)
(** * Python floats *)
(* ===================================================================== *)

Module F64.

Definition prec : Z := 53.
Definition emax : Z := 1024.

Definition float := spec_float.

(** [float(n)] for an [int]: correctly rounded. *)
Definition of_Z (n : Z) : float := binary_normalize prec emax n 0 false.

Definition mul : float -> float -> float := SFmul prec emax.
Definition add : float -> float -> float := SFadd prec emax.
Definition sub : float -> float -> float := SFsub prec emax.
Definition div : float -> float -> float := SFdiv prec emax.

(** The decimal literal [n/d] (for instance [0.7] is [lit 7 10]): the
    binary64 number nearest to the quotient. *)
Definition lit (n d : Z) : float := div (of_Z n) (of_Z d).

(** [a > b], [a >= b], [a < b], [a == b]; all false on NaN. *)
Definition gtb (a b : float) : bool := SFltb b a.
Definition geb (a b : float) : bool := SFleb b a.
Definition ltb (a b : float) : bool := SFltb a b.
Definition eqb (a b : float) : bool := SFeqb a b.

(** [int(x)] truncates toward zero; it raises [OverflowError] on an
    infinity and [ValueError] on NaN. *)
Variant int_result := IntOk (z : Z) | IntValueError | IntOverflowError.

Definition to_int (x : float) : int_result :=
  match x with
  | S754_zero _ => IntOk 0
  | S754_infinity _ => IntOverflowError
  | S754_nan => IntValueError
  | S754_finite s m e =>
      let a := if (0 <=? e)%Z then Z.shiftl (Z.pos m) e
               else Z.shiftr (Z.pos m) (- e) in
      IntOk (if s then - a else a)
  end.

End F64.

(* ===================================================================== *)
(** * Python strings *)
(* ===================================================================== *)

Module PyStr.

Definition code (c : ascii) : nat := nat_of_ascii c.

Definition is_digit (c : ascii) : bool :=
  ((48 <=? code c) && (code c <=? 57))%nat.

(** [str.isspace] on the ASCII range. *)
Definition is_space (c : ascii) : bool :=
  ((9 <=? code c) && (code c <=? 13) || (28 <=? code c) && (code c <=? 32))%nat.

Fixpoint lstrip (s : string) : string :=
  match s with
  | String c r => if is_space c then lstrip r else s
  | EmptyString => EmptyString
  end.

Fixpoint rstrip (s : string) : string :=
  match s with
  | EmptyString => EmptyString
  | String c r =>
      match rstrip r with
      | EmptyString => if is_space c then EmptyString else String c EmptyString
      | r' => String c r'
      end
  end.

(** [s.strip()] *)
Definition strip (s : string) : string := rstrip (lstrip s).

(** [s.split(sep)] for a one-character separator: never the empty list. *)
Fixpoint split (sep : ascii) (s : string) : list string :=
  match s with
  | EmptyString => [EmptyString]
  | String c r =>
      if Ascii.eqb c sep then EmptyString :: split sep r
      else match split sep r with
           | p :: ps => String c p :: ps
           | [] => [String c EmptyString]
           end
  end.

(** [s.startswith(p)] *)
Definition startswith (p s : string) : bool := String.prefix p s.

(** [s.replace(c, '')] for a one-character [c]. *)
Fixpoint remove_char (k : ascii) (s : string) : string :=
  match s with
  | EmptyString => EmptyString
  | String c r => if Ascii.eqb c k then remove_char k r
                  else String c (remove_char k r)
  end.

(** [s.isdigit()] *)
Fixpoint all_digits (s : string) : bool :=
  match s with
  | EmptyString => true
  | String c r => is_digit c && all_digits r
  end.

Definition isdigit (s : string) : bool :=
  match s with EmptyString => false | _ => all_digits s end.

Definition digit_val (c : ascii) : Z := Z.of_nat (code c) - 48.

(** The digits of a decimal literal; single underscores may separate
    digits. [sep] tells that a digit must come next. *)
Fixpoint digits (acc : Z) (sep : bool) (s : string) : option Z :=
  match s with
  | EmptyString => if sep then None else Some acc
  | String c r =>
      if is_digit c then digits (acc * 10 + digit_val c) false r
      else if Ascii.eqb c "_" && negb sep then digits acc true r
      else None
  end.

(** [int(s)]: [None] stands for [ValueError]. *)
Definition to_int (s : string) : option Z :=
  match strip s with
  | String "-" r => option_map Z.opp (digits 0 true r)
  | String "+" r => digits 0 true r
  | t => digits 0 true t
  end.

(** [str(n)] *)
Definition of_int (n : Z) : string := NilZero.string_of_int (Z.to_int n).

End PyStr.

(* ===================================================================== *)
(** * Encoding tiers: [CRFWithVBVCompressor] *)
(* ===================================================================== *)

Module Tiers.

(** One value of the [compression_tiers] dictionary. *)
Record tier := mk_tier {
  crf : Z;
  vbv_maxrate : string;
  vbv_bufsize : string;
  preset : string;
  audio_bitrate : string;
  description : string
}.

Definition t_conservative : tier :=
  mk_tier 35 "1200k" "2400k" "faster" "64k" "Smaller file, fast processing".
Definition t_conservative_42 : tier :=
  mk_tier 42 "700k" "1400k" "ultrafast" "32k"
    "Ukuran super kecil, artefak terlihat, proses sangat cepat".
Definition t_balanced : tier :=
  mk_tier 38 "1000k" "2000k" "veryfast" "48k"
    "Minimum file size, fastest processing".
Definition t_aggressive : tier :=
  mk_tier 35 "1200k" "2400k" "faster" "64k" "Smaller file, fast processing".
Definition t_maximum : tier :=
  mk_tier 38 "1000k" "2000k" "veryfast" "48k"
    "Minimum file size, fastest processing".
Definition t_ultrafast_mode : tier :=
  mk_tier 33 "2000k" "4000k" "ultrafast" "48k"
    "Maximum speed, acceptable quality".

(** [self.compression_tiers], in insertion order. *)
Definition compression_tiers : list (string * tier) :=
  [ ("conservative", t_conservative);
    ("conservative-42", t_conservative_42);
    ("balanced", t_balanced);
    ("aggressive", t_aggressive);
    ("maximum", t_maximum);
    ("ultrafast_mode", t_ultrafast_mode) ].

Fixpoint lookup (name : string) (d : list (string * tier)) : option tier :=
  match d with
  | [] => None
  | (n, t) :: d' => if String.eqb n name then Some t else lookup name d'
  end.

(** The dictionary returned by [analyze_video_for_vbv]. *)
Record video_info := mk_video_info {
  width : Z;
  height : Z;
  duration : F64.float;
  frame_rate : F64.float;
  current_bitrate : F64.float;
  file_size_mb : F64.float;
  pixel_count : Z;
  pixels_per_second : F64.float;
  bitrate_per_pixel : F64.float;
  codec : string
}.

(** What [determine_compression_tier] returns: either the dictionary
    stored in the catalog under a name (the very object, not a copy), or
    a fresh dictionary made by [.copy()] and then modified. *)
Variant tier_ref :=
| Entry (name : string)
| Copy (t : tier).

Definition deref (r : tier_ref) : option tier :=
  match r with
  | Entry name => lookup name compression_tiers
  | Copy t => Some t
  end.

Definition set_crf (c : Z) (t : tier) : tier :=
  mk_tier c (vbv_maxrate t) (vbv_bufsize t) (preset t) (audio_bitrate t)
    (description t).
Definition set_vbv (m b : string) (t : tier) : tier :=
  mk_tier (crf t) m b (preset t) (audio_bitrate t) (description t).

(** [determine_compression_tier(video_info, target_reduction,
    speed_priority)] *)
Definition determine_compression_tier
  (vi : option video_info) (target_reduction : F64.float)
  (speed_priority : bool) : tier_ref :=
  match vi with
  | None => if speed_priority then Entry "ultrafast_mode" else Entry "balanced"
  | Some info =>
    let current_bitrate := current_bitrate info in
    let file_size_mb := file_size_mb info in
    if speed_priority && F64.gtb file_size_mb (F64.of_Z 300) then
      Entry "ultrafast_mode"
    else if F64.gtb current_bitrate (F64.of_Z 5000) then
      if speed_priority then Entry "ultrafast_mode"
      else if F64.gtb target_reduction (F64.lit 8 10) then Entry "maximum"
      else if F64.gtb target_reduction (F64.lit 6 10) then Entry "aggressive"
      else Entry "balanced"
    else if F64.gtb current_bitrate (F64.of_Z 2500) then
      if speed_priority then Entry "ultrafast_mode"
      else if F64.gtb target_reduction (F64.lit 7 10) then Entry "aggressive"
      else if F64.gtb target_reduction (F64.lit 5 10) then Entry "balanced"
      else Entry "conservative"
    else if F64.gtb current_bitrate (F64.of_Z 1500) then
      if F64.gtb target_reduction (F64.lit 6 10) then Entry "balanced"
      else if F64.gtb target_reduction (F64.lit 4 10) then Entry "conservative"
      else Copy (set_crf 27 t_conservative)
    else
      if F64.gtb target_reduction (F64.lit 5 10) then Entry "conservative"
      else Copy (set_vbv "2500k" "5000k" (set_crf 22 t_conservative))
  end.

(** The band-dependent factor of [adjust_vbv_for_resolution]. *)
Definition multiplier (pixel_count : Z) : F64.float :=
  if 3840 * 2160 <=? pixel_count then F64.of_Z 2
  else if 1920 * 1080 <=? pixel_count then F64.of_Z 1
  else if 1280 * 720 <=? pixel_count then F64.lit 7 10
  else F64.lit 4 10.

(** [int(s.replace('k', ''))] *)
Definition rate_value (s : string) : option Z :=
  PyStr.to_int (PyStr.remove_char "k" s).

(** [f"{int(value * multiplier)}k"]; [None] when [int] raises. *)
Definition scaled (value : Z) (m : F64.float) : option string :=
  match F64.to_int (F64.mul (F64.of_Z value) m) with
  | F64.IntOk z => Some (String.append (PyStr.of_int z) "k")
  | _ => None
  end.

(** The two assignments to [adjusted]; [None] stands for a raised
    [ValueError] or [OverflowError]. *)
Definition apply_multiplier (m : F64.float) (settings : tier) : option tier :=
  match rate_value (vbv_maxrate settings),
        rate_value (vbv_bufsize settings) with
  | Some maxrate_value, Some bufsize_value =>
      match scaled maxrate_value m, scaled bufsize_value m with
      | Some mr, Some bs => Some (set_vbv mr bs settings)
      | _, _ => None
      end
  | _, _ => None
  end.

(** [adjust_vbv_for_resolution(settings, video_info)] *)
Definition adjust_vbv_for_resolution (settings : tier) (info : video_info)
  : option tier :=
  apply_multiplier (multiplier (pixel_count info)) settings.

(** The settings half of [build_ffmpeg_command_with_vbv]:
    [target_reduction] keeps its default [0.7]. *)
Definition build_settings (vi : option video_info) (speed_priority : bool)
  : option tier :=
  match deref (determine_compression_tier vi (F64.lit 7 10) speed_priority) with
  | None => None
  | Some settings =>
      match vi with
      | Some info => adjust_vbv_for_resolution settings info
      | None => Some settings
      end
  end.

(** The loop of [_get_tier_name] over [compression_tiers.items()]. *)
Fixpoint first_with_crf (c : Z) (d : list (string * tier)) : string :=
  match d with
  | [] => "custom"
  | (name, tier_settings) :: d' =>
      if crf tier_settings =? c then name else first_with_crf c d'
  end.

Definition _get_tier_name (settings : tier) : string :=
  first_with_crf (crf settings) compression_tiers.

(** Every dictionary the program can hand to the resolution scaler: the
    six catalog values and the two modified copies of the classifier. *)
Definition base_tiers : list tier :=
  map snd compression_tiers
  ++ [ set_crf 27 t_conservative;
       set_vbv "2500k" "5000k" (set_crf 22 t_conservative) ].

End Tiers.

(* ===================================================================== *)
(** * The CPU throttle: [_cpu_throttle_worker] *)
(* ===================================================================== *)

Module Throttle.

Variant run_state := On | Off.

(** The local variables of the worker that survive an iteration. *)
Record throttle := mk_throttle {
  ema : option F64.float;
  state : run_state;
  last_switch : F64.float
}.

(** What one iteration of the [while] loop reads: the load returned by
    [psutil.cpu_percent(interval=sample)], then [time.time()]. *)
Record sample := mk_sample {
  sys_pct : F64.float;
  now : F64.float
}.

Variant action := Suspend | Resume.

(** A change of [state], with the values the guard was evaluated on. *)
Record transition := mk_transition {
  tr_action : action;
  tr_ema : F64.float;
  tr_since : F64.float;
  tr_now : F64.float
}.

Definition hysteresis : F64.float := F64.of_Z 10.
Definition min_on : F64.float := F64.lit 6 10.
Definition min_off : F64.float := F64.lit 4 10.
Definition alpha : F64.float := F64.lit 3 10.

(** [ema = sys_pct if ema is None else alpha*sys_pct + (1-alpha)*ema] *)
Definition smooth (e : option F64.float) (sys_pct : F64.float) : F64.float :=
  match e with
  | None => sys_pct
  | Some e =>
      F64.add (F64.mul alpha sys_pct)
              (F64.mul (F64.sub (F64.of_Z 1) alpha) e)
  end.

(** The body of the [while] loop. *)
Definition step (limit : F64.float) (th : throttle) (s : sample)
  : throttle * option transition :=
  let ema := smooth (ema th) (sys_pct s) in
  let now := now s in
  match state th with
  | On =>
      if F64.gtb ema limit && F64.geb (F64.sub now (last_switch th)) min_on
      then (mk_throttle (Some ema) Off now,
            Some (mk_transition Suspend ema (last_switch th) now))
      else (mk_throttle (Some ema) On (last_switch th), None)
  | Off =>
      if F64.ltb ema (F64.sub limit hysteresis)
         && F64.geb (F64.sub now (last_switch th)) min_off
      then (mk_throttle (Some ema) On now,
            Some (mk_transition Resume ema (last_switch th) now))
      else (mk_throttle (Some ema) Off (last_switch th), None)
  end.

(** The iterations of the loop, one per sample taken while the process
    is alive and no stop event is set; the transitions are collected in
    the order in which they happen. *)
Fixpoint run (limit : F64.float) (th : throttle) (samples : list sample)
  : list transition * throttle :=
  match samples with
  | [] => ([], th)
  | s :: rest =>
      let '(th', t) := step limit th s in
      let '(ts, final) := run limit th' rest in
      (match t with Some t => t :: ts | None => ts end, final)
  end.

(** [limit = float(self.cpu_limit_percent)], [ema = None], [state = "on"],
    [last_switch = time.time()]. *)
Definition worker (cpu_limit_percent : Z) (start : F64.float)
  (samples : list sample) : list transition * throttle :=
  run (F64.of_Z cpu_limit_percent) (mk_throttle None On start) samples.

End Throttle.

(* ===================================================================== *)
(** * The encode supervisor: [run_ffmpeg] *)
(* ===================================================================== *)

Module Supervisor.

(** The encoder process as the operating system sees it. *)
Variant proc_status :=
| Running
| Suspended
| Exited (returncode : Z)
| Killed.

Definition alive (p : proc_status) : bool :=
  match p with Running | Suspended => true | _ => false end.

(** What happens while [run_ffmpeg] sits in [for line in process.stdout]:
    a line is delivered (with the value of [self.stop_event.is_set()] and
    of [time.time()] read in that iteration), or the throttle thread
    suspends or resumes the encoder in between, or the encoder exits
    with lines still in the pipe. *)
Variant event :=
| Line (stop_set : bool) (current_time : F64.float) (text : string)
| ThrottleSuspend
| ThrottleResume
| EncoderExit (returncode : Z).

(** The calls [run_ffmpeg] makes on the process and on the throttle
    thread. *)
Variant call := Kill | SetThrottleStop | ForceResume | JoinThrottle.

Variant outcome :=
| Completed
| Failed (returncode : Z)
| StalledKilled (at_time : F64.float)
| UserCancelled
| Crashed.

Record world := mk_world {
  proc : proc_status;
  calls : list call
}.

Definition do_call (c : call) (w : world) : world :=
  mk_world
    (match c with
     | Kill => if alive (proc w) then Killed else proc w
     | ForceResume =>
         match proc w with Suspended => Running | p => p end
     | _ => proc w
     end)
    (calls w ++ [c]).

Definition throttle_suspend (w : world) : world :=
  mk_world (match proc w with Running => Suspended | p => p end) (calls w).
Definition throttle_resume (w : world) : world :=
  mk_world (match proc w with Suspended => Running | p => p end) (calls w).
Definition encoder_exit (returncode : Z) (w : world) : world :=
  mk_world (if alive (proc w) then Exited returncode else proc w) (calls w).

Definition stuck_timeout : F64.float := F64.of_Z 60.

(** What a line does to [last_progress_time]. *)
Variant line_effect :=
| Progress
| NoProgress
| Uncaught.

(** [percent = min(100, int((time_ms / (duration * 1000000)) * 100))]:
    [int / float] raises [OverflowError] when the integer has no float,
    [ZeroDivisionError] on a zero divisor. *)
Definition percent (time_ms : Z) (duration : F64.float) : line_effect :=
  let t := F64.of_Z time_ms in
  let d := F64.mul duration (F64.of_Z 1000000) in
  match t, d with
  | S754_infinity _, _ => Uncaught
  | _, S754_zero _ => NoProgress
  | _, _ =>
      match F64.to_int (F64.mul (F64.div t d) (F64.of_Z 100)) with
      | F64.IntOk _ => Progress
      | F64.IntValueError => NoProgress
      | F64.IntOverflowError => Uncaught
      end
  end.

(** [size_mb = int(value) / (1024 * 1024)] *)
Definition size_mb (value : Z) : line_effect :=
  match binary_normalize F64.prec F64.emax value (-20) false with
  | S754_infinity _ => Uncaught
  | _ => Progress
  end.

(** The part of the loop body after the two kill checks. The widget
    updates and the ETA label are left out: they come after
    [last_progress_time] is set and only write to the user interface. *)
Definition parse_line (duration : F64.float) (text : string) : line_effect :=
  match PyStr.split "=" (PyStr.strip text) with
  | [key; value] =>
      if String.eqb key "out_time_ms" && F64.gtb duration (F64.of_Z 0) then
        match PyStr.to_int value with
        | Some time_ms => percent time_ms duration
        | None => NoProgress
        end
      else if String.eqb key "total_size" then
        if negb (String.eqb value "N/A") && PyStr.isdigit value then
          match PyStr.to_int value with
          | Some v => size_mb v
          | None => NoProgress
          end
        else NoProgress
      else NoProgress
  | _ => NoProgress
  end.

Record loop_state := mk_loop_state {
  last_progress_time : F64.float;
  w : world
}.

(** Where the [for] loop stands after the events so far. *)
Variant loop_result :=
| StreamOpen (st : loop_state)
| Raised (o : outcome) (st : loop_state).

(** One event. *)
Definition on_event (duration : F64.float) (st : loop_state) (e : event)
  : loop_result :=
  match e with
  | ThrottleSuspend =>
      StreamOpen (mk_loop_state (last_progress_time st) (throttle_suspend (w st)))
  | ThrottleResume =>
      StreamOpen (mk_loop_state (last_progress_time st) (throttle_resume (w st)))
  | EncoderExit rc =>
      StreamOpen (mk_loop_state (last_progress_time st) (encoder_exit rc (w st)))
  | Line stop_set current_time text =>
      if stop_set then
        Raised UserCancelled
          (mk_loop_state (last_progress_time st) (do_call Kill (w st)))
      else if F64.gtb (F64.sub current_time (last_progress_time st))
                stuck_timeout then
        Raised (StalledKilled current_time)
          (mk_loop_state (last_progress_time st) (do_call Kill (w st)))
      else
        match parse_line duration text with
        | Progress => StreamOpen (mk_loop_state current_time (w st))
        | NoProgress => StreamOpen st
        | Uncaught => Raised Crashed st
        end
  end.

(** The [for line in process.stdout] loop over the events so far. With
    no further event the loop is blocked in the read. *)
Fixpoint read_loop (duration : F64.float) (st : loop_state)
  (events : list event) : loop_result :=
  match events with
  | [] => StreamOpen st
  | e :: rest =>
      match on_event duration st e with
      | StreamOpen st' => read_loop duration st' rest
      | r => r
      end
  end.

(** [process.wait()] returns once the encoder has exited. *)
Definition wait (returncode : Z) (w : world) : world :=
  encoder_exit returncode w.

(** [process.returncode] after [wait]. *)
Definition returncode_of (p : proc_status) : Z :=
  match p with
  | Exited rc => rc
  | Killed => -9
  | _ => 0
  end.

(** The block after [# CPU LIMITER cleanup]: [process.poll() is None]
    is [alive], [throttle_thread.is_alive()] is given. *)
Definition cleanup (thread_alive : bool) (w : world) : world :=
  let w1 := do_call SetThrottleStop w in
  let w2 := if alive (proc w1) then do_call ForceResume w1 else w1 in
  if thread_alive then do_call JoinThrottle w2 else w2.

(** After the process is started at [start_time]: the events until the
    progress stream closes, then [wait], the cleanup, and the test of the
    exit code. The stream closes when the encoder exits, which a
    suspended encoder does not do: if the events leave it suspended, the
    read blocks for good and [run_ffmpeg] does not return ([None]). An
    encoder still running exits with [returncode]. *)
Definition run_ffmpeg (duration start_time : F64.float)
  (events : list event) (returncode : Z) (thread_alive : bool)
  : option (outcome * world) :=
  match read_loop duration (mk_loop_state start_time (mk_world Running []))
          events with
  | Raised o st => Some (o, w st)
  | StreamOpen st =>
      match proc (w st) with
      | Suspended => None
      | _ =>
          let w1 := wait returncode (w st) in
          let rc := returncode_of (proc w1) in
          let w2 := cleanup thread_alive w1 in
          if rc =? 0 then Some (Completed, w2) else Some (Failed rc, w2)
      end
  end.

End Supervisor.

(* ===================================================================== *)
(** * The scan strategy: [processing_loop] and [scan_for_new_files] *)
(* ===================================================================== *)

Module Scan.

Variant strategy := FullScan | IncrementalScan.

Record scan_state := mk_scan_state {
  last_full_scan_time : F64.float;
  scan_counter : Z
}.

Definition full_scan_interval : Z := 600.

(** [force_full] of [processing_loop]; [t] is its [time.time()]. *)
Definition force_full (st : scan_state) (t : F64.float) : bool :=
  F64.eqb (last_full_scan_time st) (F64.of_Z 0)
  || (scan_counter st mod 50 =? 0)
  || F64.gtb (F64.sub t (last_full_scan_time st)) (F64.of_Z 600).

(** [should_full_scan] of [scan_for_new_files]; [current_time] is the
    clock read there. *)
Definition should_full_scan (force_full_scan : bool)
  (last_full_scan_time current_time : F64.float) : bool :=
  force_full_scan
  || F64.eqb last_full_scan_time (F64.of_Z 0)
  || F64.gtb (F64.sub current_time last_full_scan_time)
       (F64.of_Z full_scan_interval).

(** The scan [scan_for_new_files] calls in a cycle whose two clock
    readings are [t] (orchestrator) and [current_time] (scanner). *)
Definition scan_strategy (st : scan_state) (t current_time : F64.float)
  : strategy :=
  if should_full_scan (force_full st t) (last_full_scan_time st) current_time
  then FullScan else IncrementalScan.

(** One cycle: the strategy, and the state the next cycle starts from.
    [_full_directory_scan] stamps [last_full_scan_time]; so does
    [_incremental_scan] when listing the source folder fails and it falls
    back to a full scan. *)
Definition cycle (st : scan_state) (t current_time : F64.float)
  (listing_fails : bool) : strategy * scan_state :=
  let s := scan_strategy st t current_time in
  let stamped :=
    match s with
    | FullScan => true
    | IncrementalScan => listing_fails
    end in
  (s, mk_scan_state
        (if stamped then current_time else last_full_scan_time st)
        (scan_counter st + 1)).

(** [self.last_full_scan_time = 0] and [scan_counter = 0]. *)
Definition initial : scan_state := mk_scan_state (F64.of_Z 0) 0.

(** The state after a sequence of cycles, each given by its two clock
    readings and by whether the folder listing fails. *)
Definition cycles (st : scan_state)
  (inputs : list (F64.float * F64.float * bool)) : scan_state :=
  foldl (fun st i => snd (cycle st (fst (fst i)) (snd (fst i)) (snd i)))
    st inputs.

End Scan.

(* ===================================================================== *)
(** * The round-robin scheduler: [_organize_files_round_robin] *)
(* ===================================================================== *)

Module RoundRobin.

Definition camera_prefix : string := "192.168.1.".

(** The first path component that starts with the camera prefix. *)
Definition camera_folder (filepath : string) : option string :=
  List.find (PyStr.startswith camera_prefix) (PyStr.split "/" filepath).

(** One iteration of the grouping loop on [camera_files]. *)
Definition add_file (camera_files : gmap string (list string))
  (filepath : string) : gmap string (list string) :=
  match camera_folder filepath with
  | Some camera => <[camera := (camera_files !!! camera) ++ [filepath]]> camera_files
  | None => camera_files
  end.

Definition group_files (file_list : list string) : gmap string (list string) :=
  foldl add_file ∅ file_list.

(** [sorted(camera_files.keys())] *)
Definition sorted_cameras (camera_files : gmap string (list string))
  : list string :=
  merge_sort String.le (elements (dom camera_files)).

(** [l.index(x)] *)
Fixpoint index (x : string) (l : list string) : option nat :=
  match l with
  | [] => None
  | y :: l' => if String.eqb y x then Some 0%nat else option_map S (index x l')
  end.

(** The reordering after [start_camera]; [None] and the empty string are
    falsy. *)
Definition rotate (start_camera : option string) (cameras : list string)
  : list string :=
  match start_camera with
  | None => cameras
  | Some "" => cameras
  | Some c =>
      match index c cameras with
      | None => cameras
      | Some start_idx =>
          let next_idx := ((start_idx + 1) mod length cameras)%nat in
          drop next_idx cameras ++ take next_idx cameras
      end
  end.

(** The body of [for camera in sorted_cameras]. [batch_size] is a number
    of files. *)
Definition take_batch (batch_size : nat)
  (st : gmap string (list string) * list string) (camera : string)
  : gmap string (list string) * list string :=
  let '(camera_files, round_robin_list) := st in
  let files := camera_files !!! camera in
  if (0 <? length files)%nat then
    (<[camera := drop batch_size files]> camera_files,
     round_robin_list ++ take batch_size files)
  else st.

(** [any(len(files) > 0 for files in camera_files.values())] *)
Definition any_pending (camera_files : gmap string (list string)) : bool :=
  bool_decide (map_Exists (λ _ files, files ≠ []) camera_files).

(** The [while] loop; [fuel] is [max_iterations - iteration]. *)
Fixpoint rr_loop (fuel : nat) (batch_size : nat) (cameras : list string)
  (camera_files : gmap string (list string)) (round_robin_list : list string)
  : list string :=
  match fuel with
  | O => round_robin_list
  | S fuel' =>
      if any_pending camera_files then
        let '(camera_files', round_robin_list') :=
          foldl (take_batch batch_size) (camera_files, round_robin_list) cameras in
        rr_loop fuel' batch_size cameras camera_files' round_robin_list'
      else round_robin_list
  end.

Definition max_iterations : nat := Z.to_nat 10000.

Definition _organize_files_round_robin (file_list : list string)
  (batch_size : nat) (start_camera : option string) : list string :=
  let camera_files := group_files file_list in
  let cameras := rotate start_camera (sorted_cameras camera_files) in
  rr_loop max_iterations batch_size cameras camera_files [].

End RoundRobin.

(* ===================================================================== *)
(** * Notions used to state the properties *)
(* ===================================================================== *)

Module Spec.
Import Tiers.

(** A probe result with the given bitrate (kbps) and pixel count. *)
Definition info_with (kbps pixels : Z) : video_info :=
  mk_video_info 1920 1080 (F64.of_Z 60) (F64.of_Z 25) (F64.of_Z kbps)
    (F64.of_Z 100) pixels (F64.of_Z 51840000) (F64.of_Z 0) "h264".

Definition info_with_bitrate (kbps : Z) : video_info :=
  info_with kbps (1920 * 1080).

(** The rate bound a setting string stands for, in kbps. *)
Definition rate (s : string) : Z := default 0 (rate_value s).

(** [int(value * m)] as Python computes it: the product is rounded to
    binary64 and then truncated. *)
Definition times (value : Z) (m : F64.float) : Z :=
  match F64.to_int (F64.mul (F64.of_Z value) m) with
  | F64.IntOk z => z
  | _ => 0
  end.

(** The rate bounds of [t'] are those of [t] times [m]. *)
Definition scales_to (m : F64.float) (t t' : tier) : Prop :=
  rate (vbv_maxrate t') = times (rate (vbv_maxrate t)) m
  /\ rate (vbv_bufsize t') = times (rate (vbv_bufsize t)) m.

(** The guard under which the worker changes its run state: [t] was
    taken with the smoothed load beyond the threshold of its direction
    and after the minimum dwell time since the previous change. *)
Definition guarded (limit : F64.float) (t : Throttle.transition) : Prop :=
  let elapsed := F64.sub (Throttle.tr_now t) (Throttle.tr_since t) in
  match Throttle.tr_action t with
  | Throttle.Suspend =>
      F64.gtb (Throttle.tr_ema t) limit = true
      /\ F64.geb elapsed Throttle.min_on = true
  | Throttle.Resume =>
      F64.ltb (Throttle.tr_ema t) (F64.sub limit Throttle.hysteresis) = true
      /\ F64.geb elapsed Throttle.min_off = true
  end.

(** The action that leaves a run state. *)
Definition leaving (s : Throttle.run_state) : Throttle.action :=
  match s with Throttle.On => Throttle.Suspend | Throttle.Off => Throttle.Resume end.

Definition other (a : Throttle.action) : Throttle.action :=
  match a with Throttle.Suspend => Throttle.Resume | Throttle.Resume => Throttle.Suspend end.

(** The transitions alternate, beginning with [a], and each one measures
    its dwell time from the previous one ([since] for the first). *)
Fixpoint chained (since : F64.float) (a : Throttle.action)
  (ts : list Throttle.transition) : Prop :=
  match ts with
  | [] => True
  | t :: ts' =>
      Throttle.tr_action t = a /\ Throttle.tr_since t = since
      /\ chained (Throttle.tr_now t) (other a) ts'
  end.

(** The smoothed load after the given samples. *)
Definition ema_of (loads : list F64.float) : option F64.float :=
  foldl (fun e x => Some (Throttle.smooth e x)) None loads.

(** The supervisor right after the encoder has been started. *)
Definition started (start_time : F64.float) : Supervisor.loop_state :=
  Supervisor.mk_loop_state start_time
    (Supervisor.mk_world Supervisor.Running []).

(** The files of a camera folder, in the order of the list. *)
Definition files_of (camera : string) (l : list string) : list string :=
  filter (fun f => RoundRobin.camera_folder f = Some camera) l.

(** How many files of a camera folder a list holds: dispatched so far
    for a prefix of the schedule, pending for the input. *)
Definition count_of (camera : string) (l : list string) : nat :=
  length (files_of camera l).

(** Some component of the path begins with the camera prefix. *)
Definition has_camera_component (filepath : string) : bool :=
  existsb (PyStr.startswith RoundRobin.camera_prefix)
    (PyStr.split "/" filepath).

(** The batch a camera contributes in round [r], the round, and the
    first [n] rounds, when the queues are [queue]. *)
Definition batch (queue : string -> list string) (b r : nat)
  (camera : string) : list string :=
  take b (drop (r * b) (queue camera)).
Definition round (queue : string -> list string) (b : nat)
  (cameras : list string) (r : nat) : list string :=
  flat_map (batch queue b r) cameras.
Definition rounds (queue : string -> list string) (b : nat)
  (cameras : list string) (n : nat) : list string :=
  flat_map (round queue b cameras) (seq 0 n).

(** Sample inputs: three camera folders; one folder with a single file;
    one folder with more files than the loop can take at batch size 3. *)
Definition three_cameras : list string :=
  [ "/nas/192.168.1.111/2024-01-01/a.dav";
    "/nas/192.168.1.111/2024-01-01/b.dav";
    "/nas/192.168.1.111/2024-01-01/c.dav";
    "/nas/192.168.1.111/2024-01-01/d.dav";
    "/nas/192.168.1.112/2024-01-01/a.dav";
    "/nas/192.168.1.113/2024-01-01/a.dav";
    "/nas/lost+found/x.dav" ].

Definition one_camera : list string :=
  [ "/nas/192.168.1.112/2024-01-01/a.dav" ].

Definition crowded_camera : list string :=
  replicate (Z.to_nat 30001) "/nas/192.168.1.112/2024-01-01/a.dav".

End Spec.

(* ===================================================================== *)
(** * More Python strings: [lower], [endswith] *)
(* ===================================================================== *)

Module PyText.

(** [c.lower()] on the ASCII range. *)
Definition lower_char (c : ascii) : ascii :=
  let n := PyStr.code c in
  if ((65 <=? n) && (n <=? 90))%nat then ascii_of_nat (n + 32) else c.

Fixpoint lower (s : string) : string :=
  match s with
  | EmptyString => EmptyString
  | String c r => String (lower_char c) (lower r)
  end.

(** [s.endswith(suffix)] *)
Definition endswith (suffix s : string) : bool :=
  let n := String.length s in
  let m := String.length suffix in
  (m <=? n)%nat && String.eqb (String.substring (n - m) m s) suffix.

(** [path.lower().endswith('.dav')] *)
Definition is_dav (path : string) : bool := endswith ".dav" (lower path).

End PyText.

(* ===================================================================== *)
(** * The encoder command: [build_ffmpeg_command_with_vbv], [run_ffmpeg] *)
(* ===================================================================== *)

Module Command.
Import Tiers.

(** The format hint for DHAV recordings. *)
Definition dhav_hint (input_path : string) : list string :=
  if PyText.is_dav input_path then ["-f"; "dhav"] else [].

Definition is_ultrafast (settings : tier) : bool :=
  String.eqb (preset settings) "ultrafast".

(** [x265_params] of the two branches. *)
Definition x265_params (settings : tier) : list string :=
  if is_ultrafast settings then
    [ "no-sao=1"; "subme=1"; "me=dia"; "rd=1";
      String.append "vbv-maxrate=" (PyStr.remove_char "k" (vbv_maxrate settings));
      String.append "vbv-bufsize=" (PyStr.remove_char "k" (vbv_bufsize settings));
      "no-weightb=1"; "no-weightp=1"; "rc-lookahead=5"; "bframes=2";
      "b-adapt=0"; "scenecut=0" ]
  else
    [ "no-sao=0"; "rd=2"; "subme=2"; "me=hex"; "ref=2"; "rc-lookahead=10";
      "aq-mode=1"; "aq-strength=0.8"; "weightp=1"; "cutree=1"; "bframes=3";
      "b-adapt=1"; "scenecut=40"; "psy-rd=1.0"; "deblock=1,1" ].

(** The list [cmd] for settings already determined and scaled. *)
Definition command (settings : tier) (input_path output_path : string)
  : list string :=
  ["ffmpeg"; "-y"]
  ++ dhav_hint input_path
  ++ ["-i"; input_path]
  ++ (if is_ultrafast settings then ["-vf"; String.concat "," ["hqdn3d"]] else [])
  ++ [ "-c:v"; "libx265"; "-crf"; PyStr.of_int (crf settings);
       "-preset"; preset settings;
       "-maxrate"; vbv_maxrate settings; "-bufsize"; vbv_bufsize settings ]
  ++ (if is_ultrafast settings then ["-tune"; "zerolatency"] else [])
  ++ ["-x265-params"; String.concat ":" (x265_params settings)]
  ++ ["-c:a"; "aac"; "-b:a"; audio_bitrate settings; "-ac"; "2"]
  ++ [ "-threads"; "0"; "-progress"; "pipe:1"; "-nostats"; "-hide_banner";
       "-loglevel"; "warning"; output_path ].

(** [build_ffmpeg_command_with_vbv(input_path, output_path, video_info,
    speed_priority)]; [None] stands for an exception of the scaler. *)
Definition build_ffmpeg_command_with_vbv (input_path output_path : string)
  (vi : option video_info) (speed_priority : bool)
  : option (list string * tier) :=
  match build_settings vi speed_priority with
  | Some settings => Some (command settings input_path output_path, settings)
  | None => None
  end.

(** The fixed arguments [run_ffmpeg] uses when the probe failed. *)
Definition fallback_args (input_f output_f : string) : list string :=
  ["ffmpeg"; "-y"]
  ++ dhav_hint input_f
  ++ [ "-i"; input_f; "-c:v"; "libx265"; "-crf"; "33"; "-preset"; "fast";
       "-maxrate"; "1500k"; "-bufsize"; "3000k"; "-x265-params";
       "rd=2:subme=2:me=hex:ref=2:rc-lookahead=10:aq-mode=1:weightp=1:cutree=1";
       "-c:a"; "aac"; "-b:a"; "96k"; "-ac"; "2"; "-threads"; "0";
       "-progress"; "pipe:1"; "-nostats"; "-hide_banner";
       "-loglevel"; "warning"; output_f ].

(** [args] of [run_ffmpeg]: speed priority keeps its default. *)
Definition run_ffmpeg_args (input_f output_f : string)
  (vi : option video_info) : option (list string) :=
  match vi with
  | Some info =>
      option_map fst
        (build_ffmpeg_command_with_vbv input_f output_f (Some info) false)
  | None => Some (fallback_args input_f output_f)
  end.

End Command.

(* ===================================================================== *)
(** * The scanner: the caches, [_full_directory_scan], [_incremental_scan],
      [mark_file_as_processed], [scan_for_new_files] *)
(* ===================================================================== *)

Module Ingest.

(** [self.scanned_files_cache] and [self.processed_files_cache]. *)
Record caches := mk_caches {
  scanned_files_cache : gset string;
  processed_files_cache : gset string
}.

Definition initial : caches := mk_caches ∅ ∅.

(** What a scan sees of the file system: the [*.dav] paths [os.walk]
    yields, in its order; the [.dav] paths listed in the today and
    yesterday folders of the camera folders, or [None] when listing the
    source raises; and whether the output mapped to a path exists. The
    view does not change during one scan. *)
Record source_view := mk_source_view {
  walk : list string;
  listing : option (list string);
  output_exists : string -> bool
}.

Definition mark_file_as_processed (file_path : string) (c : caches) : caches :=
  mk_caches
    (if bool_decide (file_path ∈ scanned_files_cache c)
     then scanned_files_cache c ∖ {[ file_path ]}
     else scanned_files_cache c)
    ({[ file_path ]} ∪ processed_files_cache c).

(** The list [dav_files] of the full scan. *)
Definition unprocessed (v : source_view) (c : caches) : list string :=
  filter (fun input_path =>
            (input_path ∉ processed_files_cache c)
            /\ (output_exists v input_path = false))
    (walk v).

Definition _full_directory_scan (v : source_view) (c : caches)
  : list string * caches :=
  let dav_files := unprocessed v c in
  (merge_sort String.le dav_files,
   mk_caches (list_to_set dav_files) (processed_files_cache c)).

(** The body of the innermost loop of the incremental scan, on the
    pending cache. *)
Definition check_candidate (v : source_view) (processed : gset string)
  (scanned : gset string) (input_path : string) : gset string :=
  if bool_decide (input_path ∈ processed) then scanned
  else if bool_decide (input_path ∈ scanned) then scanned
  else if output_exists v input_path then scanned
  else {[ input_path ]} ∪ scanned.

Definition _incremental_scan (v : source_view) (c : caches)
  : list string * caches :=
  match listing v with
  | None => _full_directory_scan v c
  | Some candidates =>
      let scanned :=
        foldl (check_candidate v (processed_files_cache c))
          (scanned_files_cache c) candidates in
      let all_pending :=
        elements (filter (fun f => f ∉ processed_files_cache c) scanned) in
      (merge_sort String.le all_pending,
       mk_caches scanned (processed_files_cache c))
  end.

(** The scan of [scan_for_new_files], before the round-robin step. *)
Definition sorted_files (should_full_scan : bool) (v : source_view)
  (c : caches) : list string * caches :=
  if should_full_scan then _full_directory_scan v c
  else _incremental_scan v c.

(** [scan_for_new_files] once the strategy is decided. *)
Definition scan_for_new_files (should_full_scan : bool) (v : source_view)
  (c : caches) (last_processed_camera : option string)
  : list string * caches :=
  let '(files, c') := sorted_files should_full_scan v c in
  (if (0 <? length files)%nat
   then RoundRobin._organize_files_round_robin files 3 last_processed_camera
   else files,
   c').

(** [self.camera_order] as the round-robin step leaves it. *)
Definition camera_order (files : list string) : list string :=
  RoundRobin.sorted_cameras (RoundRobin.group_files files).

(** What the orchestrator does to the caches between two scans. *)
Variant op :=
| Mark (file_path : string)
| Scan (should_full_scan : bool) (v : source_view)
       (last_processed_camera : option string).

(** The caches after a sequence of operations, with the schedules the
    scans returned, oldest first. *)
Fixpoint run (ops : list op) (c : caches) : list (list string) * caches :=
  match ops with
  | [] => ([], c)
  | Mark file_path :: rest => run rest (mark_file_as_processed file_path c)
  | Scan full v cam :: rest =>
      let '(schedule, c') := scan_for_new_files full v c cam in
      let '(schedules, final) := run rest c' in
      (schedule :: schedules, final)
  end.

End Ingest.

(* ===================================================================== *)
(** * Deleting an original: [safe_delete_original_file] *)
(* ===================================================================== *)

Module Delete.

(** What [os.remove] does: it removes the file, raises, or returns with
    the file still there. *)
Variant remove_effect := Removes | RemoveRaises | RemoveLeaves.

Record delete_env := mk_delete_env {
  getsize_raises : bool;
  remove : remove_effect
}.

(** The result and the files that exist afterwards. *)
Definition safe_delete_original_file (auto_delete_mode : bool)
  (file_path : string) (fs : gset string) (e : delete_env)
  : bool * gset string :=
  if negb auto_delete_mode then (false, fs)
  else if negb (PyText.is_dav file_path) then (false, fs)
  else if negb (bool_decide (file_path ∈ fs)) then (false, fs)
  else if getsize_raises e then (false, fs)
  else
    match remove e with
    | Removes => (true, fs ∖ {[ file_path ]})
    | RemoveRaises => (false, fs)
    | RemoveLeaves => (false, fs)
    end.

End Delete.

(* ===================================================================== *)
(** * One round of [processing_loop]: the loop over the schedule *)
(* ===================================================================== *)

Module Orchestrator.

(** The way one file goes through the body of the [for] loop.
    - [OutputExists]: the output is already there; the file is skipped.
    - [SetupRaises]: an exception no handler of the body catches, from
      [os.makedirs] or [os.path.getsize] before the inner [try] or from
      [os.remove] in its handler; it leaves the loop with nothing marked.
    - [Verified]: [run_ffmpeg] returns, the copy has the right size and
      the local output is removed.
    - [Unverified]: [run_ffmpeg] returns, the copy step raises or the
      size differs, nothing raises afterwards.
    - [Caught corrupt]: an exception reaches the inner handler with the
      file not marked; [corrupt] tells that its message names a corrupt
      or unsupported source. *)
Variant file_result :=
| OutputExists
| SetupRaises
| Verified
| Unverified
| Caught (corrupt : bool).

(** The way taken once [run_ffmpeg] has returned and the local output has
    been measured, by whether the copy is verified and by the size of the
    source. The ratio logged after the copy divides by that size: for an
    empty source it raises [ZeroDivisionError], which reaches the inner
    handler with a message that names no corrupt source. After a verified
    copy the file is marked and the round test made before the ratio, and
    the handler repeats the same test. *)
Definition after_encode (copy_verified : bool) (input_size_bytes : Z)
  : file_result :=
  if copy_verified then Verified
  else if input_size_bytes =? 0 then Caught false
  else Unverified.

Record item := mk_item {
  input_path : string;
  relative_path : string;
  stop_set : bool;
  result : file_result;
  delete_env : Delete.delete_env
}.

Record loop_state := mk_loop_state {
  files_in_current_batch : nat;
  caches : Ingest.caches;
  last_processed_camera : option string;
  source_files : gset string
}.

Variant ending := Exhausted | Stopped | RoundComplete | FatalError.

(** [round_size = 3 * num_cameras], five cameras when [camera_order] is
    empty. *)
Definition round_size (camera_order : list string) : nat :=
  (3 * match camera_order with [] => 5 | _ => length camera_order end)%nat.

(** The camera tracked for a file. *)
Definition track_camera (relative_path : string) (last : option string)
  : option string :=
  match RoundRobin.camera_folder relative_path with
  | Some part => Some part
  | None => last
  end.

(** The test made after a skip, a verified copy and a caught failure. *)
Definition round_complete (auto_scan_mode : bool) (round_size batch : nat)
  : bool :=
  auto_scan_mode && (round_size <=? batch)%nat.

(** The [for] loop over the schedule. *)
Fixpoint file_loop (auto_scan_mode auto_delete_mode : bool)
  (round_size : nat) (st : loop_state) (items : list item)
  : ending * loop_state :=
  match items with
  | [] => (Exhausted, st)
  | it :: rest =>
      if stop_set it then (Stopped, st)
      else
        let batch := S (files_in_current_batch st) in
        let camera := track_camera (relative_path it) (last_processed_camera st) in
        let continue_with st' :=
          file_loop auto_scan_mode auto_delete_mode round_size st' rest in
        let checked st' :=
          if round_complete auto_scan_mode round_size batch
          then (RoundComplete, st') else continue_with st' in
        match result it with
        | OutputExists =>
            checked (mk_loop_state batch
                       (Ingest.mark_file_as_processed (input_path it) (caches st))
                       camera (source_files st))
        | SetupRaises =>
            (FatalError, mk_loop_state batch (caches st) camera (source_files st))
        | Verified =>
            let fs :=
              if auto_delete_mode then
                snd (Delete.safe_delete_original_file auto_delete_mode
                       (input_path it) (source_files st) (delete_env it))
              else source_files st in
            checked (mk_loop_state batch
                       (Ingest.mark_file_as_processed (input_path it) (caches st))
                       camera fs)
        | Unverified =>
            continue_with (mk_loop_state batch (caches st) camera (source_files st))
        | Caught corrupt =>
            checked (mk_loop_state batch
                       (if corrupt
                        then Ingest.mark_file_as_processed (input_path it) (caches st)
                        else caches st)
                       camera (source_files st))
        end
  end.

End Orchestrator.

(* ===================================================================== *)
(** * Notions that link the components *)
(* ===================================================================== *)

Module Links.
Import Orchestrator.

(** The suspend and resume calls of the throttle worker, as the loop of
    the supervisor meets them. *)
Definition throttle_events (ts : list Throttle.transition)
  : list Supervisor.event :=
  map (fun t => match Throttle.tr_action t with
                | Throttle.Suspend => Supervisor.ThrottleSuspend
                | Throttle.Resume => Supervisor.ThrottleResume
                end) ts.

(** The encoder as the worker believes it to be. *)
Definition status_of (s : Throttle.run_state) : Supervisor.proc_status :=
  match s with
  | Throttle.On => Supervisor.Running
  | Throttle.Off => Supervisor.Suspended
  end.

(** The strategies of consecutive cycles, each cycle given by its two
    clock readings and by whether the folder listing fails. *)
Fixpoint strategies (st : Scan.scan_state)
  (inputs : list (F64.float * F64.float * bool)) : list Scan.strategy :=
  match inputs with
  | [] => []
  | i :: rest =>
      let r := Scan.cycle st (fst (fst i)) (snd (fst i)) (snd i) in
      fst r :: strategies (snd r) rest
  end.

(** The ways through the loop body that mark the file as processed. *)
Definition marking (r : file_result) : Prop :=
  r = OutputExists \/ r = Verified \/ r = Caught true.

(** Sample data: two recordings; what a scan sees of them, the second
    one lying in a folder of today; the loop's view of the first one with
    a given way through the body; the state a round starts from. *)
Definition recording : string := "/nas/192.168.1.111/2024-01-01/a.dav".
Definition second_recording : string := "/nas/192.168.1.112/2024-01-02/a.dav".

Definition sample_view : Ingest.source_view :=
  Ingest.mk_source_view [recording; second_recording]
    (Some [second_recording]) (fun _ => false).

Definition sample_item (r : file_result) : item :=
  mk_item recording "192.168.1.111/2024-01-01/a.dav" false r
    (Delete.mk_delete_env false Delete.Removes).

Definition fresh_round (fs : gset string) : loop_state :=
  mk_loop_state 0 Ingest.initial None fs.

(** The value of a digit sequence read from the left, as [int] reads
    it. *)
Fixpoint read_digits (acc : Z) (d : Decimal.uint) : Z :=
  match d with
  | Decimal.Nil => acc
  | Decimal.D0 d => read_digits (acc * 10 + 0) d
  | Decimal.D1 d => read_digits (acc * 10 + 1) d
  | Decimal.D2 d => read_digits (acc * 10 + 2) d
  | Decimal.D3 d => read_digits (acc * 10 + 3) d
  | Decimal.D4 d => read_digits (acc * 10 + 4) d
  | Decimal.D5 d => read_digits (acc * 10 + 5) d
  | Decimal.D6 d => read_digits (acc * 10 + 6) d
  | Decimal.D7 d => read_digits (acc * 10 + 7) d
  | Decimal.D8 d => read_digits (acc * 10 + 8) d
  | Decimal.D9 d => read_digits (acc * 10 + 9) d
  end.

(** No white space and no [k]. *)
Fixpoint plain (s : string) : bool :=
  match s with
  | EmptyString => true
  | String c r => negb (PyStr.is_space c) && negb (Ascii.eqb c "k") && plain r
  end.

(** No stop is requested, no line makes the loop raise, and every line
    arrives within the stall timeout of the last progress (of [last]
    before the first progress). *)
Fixpoint timely (duration last : F64.float) (events : list Supervisor.event)
  : bool :=
  match events with
  | [] => true
  | Supervisor.Line stop_set current_time text :: rest =>
      negb stop_set
      && negb (F64.gtb (F64.sub current_time last) Supervisor.stuck_timeout)
      && match Supervisor.parse_line duration text with
         | Supervisor.Progress => timely duration current_time rest
         | Supervisor.NoProgress => timely duration last rest
         | Supervisor.Uncaught => false
         end
  | _ :: rest => timely duration last rest
  end.

End Links.

(* ===================================================================== *)
(** * Properties: the helpers on concrete inputs *)
(* ===================================================================== *)

Example split_path :
  PyStr.split "/" "/nas/192.168.1.112/2024-01-01/a.dav"
  = [""; "nas"; "192.168.1.112"; "2024-01-01"; "a.dav"].
Proof. reflexivity. Qed.

Example split_empty : PyStr.split "/" "" = [""].
Proof. reflexivity. Qed.

Example to_int_examples :
  PyStr.to_int " 1_200 " = Some 1200 /\ PyStr.to_int "-7" = Some (-7)
  /\ PyStr.to_int "N/A" = None /\ PyStr.to_int "" = None
  /\ PyStr.to_int "1__2" = None /\ PyStr.to_int "12_" = None.
Proof. repeat split; reflexivity. Qed.

Example float_products :
  F64.to_int (F64.mul (F64.of_Z 1200) (F64.lit 7 10)) = F64.IntOk 840
  /\ F64.to_int (F64.mul (F64.of_Z 700) (F64.lit 7 10)) = F64.IntOk 489
  /\ F64.to_int (F64.mul (F64.of_Z 2000) (F64.lit 4 10)) = F64.IntOk 800.
Proof. repeat split; vm_compute; reflexivity. Qed.

(** Nine files of three folders at batch size 3: folder after folder. *)
Example rr_single_round :
  RoundRobin._organize_files_round_robin
    ["/s/192.168.1.1/a"; "/s/192.168.1.1/b"; "/s/192.168.1.1/c";
     "/s/192.168.1.2/a"; "/s/192.168.1.2/b"; "/s/192.168.1.2/c";
     "/s/192.168.1.3/a"; "/s/192.168.1.3/b"; "/s/192.168.1.3/c"] 3%nat None
  = ["/s/192.168.1.1/a"; "/s/192.168.1.1/b"; "/s/192.168.1.1/c";
     "/s/192.168.1.2/a"; "/s/192.168.1.2/b"; "/s/192.168.1.2/c";
     "/s/192.168.1.3/a"; "/s/192.168.1.3/b"; "/s/192.168.1.3/c"].
Proof. vm_compute. reflexivity. Qed.

Example rr_three_by_three :
  RoundRobin._organize_files_round_robin
    ["/s/192.168.1.2/a"; "/s/192.168.1.2/b"; "/s/192.168.1.3/a";
     "/s/192.168.1.1/a"; "/s/192.168.1.1/b"; "/s/other/x";
     "/s/192.168.1.1/c"; "/s/192.168.1.1/d"] 3%nat (Some "192.168.1.1")
  = ["/s/192.168.1.2/a"; "/s/192.168.1.2/b"; "/s/192.168.1.3/a";
     "/s/192.168.1.1/a"; "/s/192.168.1.1/b"; "/s/192.168.1.1/c";
     "/s/192.168.1.1/d"].
Proof. vm_compute. reflexivity. Qed.

(* ===================================================================== *)
(** * Properties of the tier classifier and of name recovery *)
(* ===================================================================== *)

Section TierProperties.
Import Tiers Spec.

Local Notation "x >. y" := (F64.gtb x y = true) (at level 70).
Local Notation "x <=. y" := (F64.gtb x y = false) (at level 70).

Lemma lookup_catalog_names :
  lookup "conservative" compression_tiers = Some t_conservative
  /\ lookup "balanced" compression_tiers = Some t_balanced
  /\ lookup "aggressive" compression_tiers = Some t_aggressive
  /\ lookup "maximum" compression_tiers = Some t_maximum
  /\ lookup "ultrafast_mode" compression_tiers = Some t_ultrafast_mode.
Proof. repeat split; reflexivity. Qed.

(** Two rows of the table in the form other proofs use. *)
Lemma tier_decision_rows (info : video_info) (tr : F64.float) :
  F64.gtb (current_bitrate info) (F64.of_Z 5000) = true ->
  F64.gtb tr (F64.lit 8 10) = false ->
  F64.gtb tr (F64.lit 6 10) = true ->
  determine_compression_tier (Some info) tr false = Entry "aggressive".
Proof.
  intros H1 H2 H3. unfold determine_compression_tier.
  rewrite andb_false_l, H1, H2, H3. reflexivity.
Qed.

(** C5, as amended. With speed priority disabled the classifier is the
    following table over the bitrate band and the target reduction: ten
    combinations return the catalog entry of a fixed name, among them
    "maximum" for a bitrate above 5000 and a target reduction above 0.8;
    the two "already well compressed" combinations return a modified copy
    of the conservative entry instead. *)
Theorem tier_decision_table (info : video_info) (tr : F64.float) :
  let br := current_bitrate info in
  let r := determine_compression_tier (Some info) tr false in
  (br >. F64.of_Z 5000 -> tr >. F64.lit 8 10 -> r = Entry "maximum")
  /\ (br >. F64.of_Z 5000 -> tr <=. F64.lit 8 10 -> tr >. F64.lit 6 10 ->
      r = Entry "aggressive")
  /\ (br >. F64.of_Z 5000 -> tr <=. F64.lit 8 10 -> tr <=. F64.lit 6 10 ->
      r = Entry "balanced")
  /\ (br <=. F64.of_Z 5000 -> br >. F64.of_Z 2500 -> tr >. F64.lit 7 10 ->
      r = Entry "aggressive")
  /\ (br <=. F64.of_Z 5000 -> br >. F64.of_Z 2500 -> tr <=. F64.lit 7 10 ->
      tr >. F64.lit 5 10 -> r = Entry "balanced")
  /\ (br <=. F64.of_Z 5000 -> br >. F64.of_Z 2500 -> tr <=. F64.lit 7 10 ->
      tr <=. F64.lit 5 10 -> r = Entry "conservative")
  /\ (br <=. F64.of_Z 5000 -> br <=. F64.of_Z 2500 -> br >. F64.of_Z 1500 ->
      tr >. F64.lit 6 10 -> r = Entry "balanced")
  /\ (br <=. F64.of_Z 5000 -> br <=. F64.of_Z 2500 -> br >. F64.of_Z 1500 ->
      tr <=. F64.lit 6 10 -> tr >. F64.lit 4 10 -> r = Entry "conservative")
  /\ (br <=. F64.of_Z 5000 -> br <=. F64.of_Z 2500 -> br >. F64.of_Z 1500 ->
      tr <=. F64.lit 6 10 -> tr <=. F64.lit 4 10 ->
      r = Copy (set_crf 27 t_conservative))
  /\ (br <=. F64.of_Z 5000 -> br <=. F64.of_Z 2500 -> br <=. F64.of_Z 1500 ->
      tr >. F64.lit 5 10 -> r = Entry "conservative")
  /\ (br <=. F64.of_Z 5000 -> br <=. F64.of_Z 2500 -> br <=. F64.of_Z 1500 ->
      tr <=. F64.lit 5 10 ->
      r = Copy (set_vbv "2500k" "5000k" (set_crf 22 t_conservative))).
Proof.
  cbv zeta. unfold determine_compression_tier. rewrite andb_false_l.
  repeat split; intros;
    repeat match goal with
      | H : F64.gtb _ _ = _ |- _ => rewrite H; clear H
      end; reflexivity.
Qed.

Lemma tier_decision_table_witness :
  determine_compression_tier
    (Some (info_with_bitrate 6000)) (F64.lit 9 10) false = Entry "maximum".
Proof.
  apply (proj1 (tier_decision_table (info_with_bitrate 6000) (F64.lit 9 10)));
    vm_compute; reflexivity.
Defined.

(** C5 as stated fails: for a bitrate of 2000 kbps and a target reduction
    of 0.3 the classifier does not return a catalog entry, neither by
    reference nor by value. *)
Lemma well_compressed_is_no_catalog_entry :
  let r := determine_compression_tier
             (Some (info_with_bitrate 2000)) (F64.lit 3 10) false in
  (forall name, r <> Entry name)
  /\ (forall name t, In (name, t) compression_tiers -> deref r <> Some t).
Proof.
  split.
  - intros name. vm_compute. discriminate.
  - intros name t Hin. vm_compute in Hin.
    repeat (destruct Hin as [Hin | Hin];
            [inversion Hin; subst; vm_compute; discriminate |]).
    destruct Hin.
Qed.

(** With the default target reduction of [0.7], which is what
    [build_ffmpeg_command_with_vbv] passes, "maximum" is never chosen. *)
Lemma default_reduction_never_maximum (vi : option video_info) (sp : bool) :
  determine_compression_tier vi (F64.lit 7 10) sp <> Entry "maximum".
Proof.
  unfold determine_compression_tier.
  destruct vi as [info|]; [|destruct sp; discriminate].
  replace (F64.gtb (F64.lit 7 10) (F64.lit 8 10)) with false by (vm_compute; reflexivity).
  replace (F64.gtb (F64.lit 7 10) (F64.lit 6 10)) with true by (vm_compute; reflexivity).
  replace (F64.gtb (F64.lit 7 10) (F64.lit 7 10)) with false by (vm_compute; reflexivity).
  replace (F64.gtb (F64.lit 7 10) (F64.lit 5 10)) with true by (vm_compute; reflexivity).
  repeat match goal with
    | |- context [if ?b then _ else _] => destruct b
    end; discriminate.
Qed.

(** The loop of [_get_tier_name] stops at the first entry, in insertion
    order, whose crf is the one looked for. *)
Lemma first_with_crf_spec (c : Z) (d : list (string * tier)) :
  (exists l1 t l2, d = l1 ++ (first_with_crf c d, t) :: l2
                   /\ crf t = c /\ Forall (fun e => crf (snd e) <> c) l1)
  \/ (first_with_crf c d = "custom" /\ Forall (fun e => crf (snd e) <> c) d).
Proof.
  induction d as [|[n t] d IH]; simpl.
  - right. split; [reflexivity | constructor].
  - destruct (Z.eqb_spec (crf t) c) as [Heq | Hne].
    + left. exists [], t, d. repeat split; [assumption | constructor].
    + destruct IH as [(l1 & t' & l2 & Hd & Hc & Hl1) | [Hcu Hall]].
      * left. exists ((n, t) :: l1), t', l2. repeat split.
        -- simpl. congruence.
        -- assumption.
        -- constructor; assumption.
      * right. split; [assumption | constructor; assumption].
Qed.

(** C10. Name recovery returns the first catalog entry, in insertion
    order, whose crf equals that of the settings (or "custom"); the
    catalog repeats crf 35 and crf 38, so the entry chosen as "maximum"
    is reported as "balanced" and the one chosen as "aggressive" as
    "conservative". *)
Theorem tier_name_is_first_crf_match :
  (forall settings : tier,
      (exists l1 t l2,
          compression_tiers = l1 ++ (_get_tier_name settings, t) :: l2
          /\ crf t = crf settings
          /\ Forall (fun e => crf (snd e) <> crf settings) l1)
      \/ (_get_tier_name settings = "custom"
          /\ Forall (fun e => crf (snd e) <> crf settings) compression_tiers))
  /\ crf t_conservative = 35 /\ crf t_aggressive = 35
  /\ crf t_balanced = 38 /\ crf t_maximum = 38
  /\ option_map _get_tier_name (deref (Entry "maximum")) = Some "balanced"
  /\ option_map _get_tier_name (deref (Entry "aggressive")) = Some "conservative".
Proof.
  split; [|repeat split; reflexivity].
  intros settings. apply first_with_crf_spec.
Qed.

(** The scaler keeps the crf, so the confusion survives up to the log
    line of [run_ffmpeg]. *)
Lemma scaled_tier_keeps_name (t t' : tier) (info : video_info) :
  adjust_vbv_for_resolution t info = Some t' ->
  _get_tier_name t' = _get_tier_name t.
Proof.
  unfold adjust_vbv_for_resolution, apply_multiplier. intros H.
  destruct (rate_value (vbv_maxrate t)); [|discriminate].
  destruct (rate_value (vbv_bufsize t)); [|discriminate].
  destruct (scaled _ _); [|discriminate].
  destruct (scaled _ _); [|discriminate].
  inversion H. reflexivity.
Qed.

(** What [run_ffmpeg] logs for a source above 5000 kbps: the classifier
    picks "aggressive" at the default target reduction, and the name
    recovered from the scaled settings is "conservative". *)
Lemma high_bitrate_is_logged_as_conservative (info : video_info) (t : tier) :
  F64.gtb (current_bitrate info) (F64.of_Z 5000) = true ->
  build_settings (Some info) false = Some t ->
  determine_compression_tier (Some info) (F64.lit 7 10) false
  = Entry "aggressive"
  /\ _get_tier_name t = "conservative".
Proof.
  intros Hbr Hb.
  assert (Hd : determine_compression_tier (Some info) (F64.lit 7 10) false
               = Entry "aggressive").
  { apply (tier_decision_rows info (F64.lit 7 10)); [exact Hbr | |];
      vm_compute; reflexivity. }
  split; [exact Hd|].
  unfold build_settings in Hb. rewrite Hd in Hb. simpl in Hb.
  rewrite (scaled_tier_keeps_name _ _ _ Hb). reflexivity.
Qed.

End TierProperties.

(* ===================================================================== *)
(** * Properties of the resolution scaler *)
(* ===================================================================== *)

Section ScalerProperties.
Import Tiers Spec.

Lemma multiplier_bands (pc : Z) :
  (3840 * 2160 <= pc -> multiplier pc = F64.of_Z 2)
  /\ (1920 * 1080 <= pc < 3840 * 2160 -> multiplier pc = F64.of_Z 1)
  /\ (1280 * 720 <= pc < 1920 * 1080 -> multiplier pc = F64.lit 7 10)
  /\ (pc < 1280 * 720 -> multiplier pc = F64.lit 4 10).
Proof.
  unfold multiplier.
  repeat split; intros;
    repeat match goal with
      | |- context [?a <=? ?b] => destruct (Z.leb_spec a b); try lia
      end; reflexivity.
Qed.

Lemma multiplier_cases (pc : Z) :
  (3840 * 2160 <= pc /\ multiplier pc = F64.of_Z 2)
  \/ (1920 * 1080 <= pc < 3840 * 2160 /\ multiplier pc = F64.of_Z 1)
  \/ (1280 * 720 <= pc < 1920 * 1080 /\ multiplier pc = F64.lit 7 10)
  \/ (pc < 1280 * 720 /\ multiplier pc = F64.lit 4 10).
Proof.
  pose proof (multiplier_bands pc) as (H1 & H2 & H3 & H4).
  destruct (Z_lt_le_dec pc (1280 * 720)).
  { right; right; right. split; [assumption | apply H4; assumption]. }
  destruct (Z_lt_le_dec pc (1920 * 1080)).
  { right; right; left. split; [lia | apply H3; lia]. }
  destruct (Z_lt_le_dec pc (3840 * 2160)).
  { right; left. split; [lia | apply H2; lia]. }
  left. split; [assumption | apply H1; assumption].
Qed.

Local Ltac band_cases pc Hb Hm :=
  destruct (multiplier_cases pc)
    as [[Hb Hm] | [[Hb Hm] | [[Hb Hm] | [Hb Hm]]]].

Local Ltac by_computation :=
  lazymatch goal with
  | |- (_ <= _)%Z => apply Z.leb_le; vm_compute; reflexivity
  | |- _ => vm_compute; reflexivity
  end.

(** C6. For every setting the program hands to the scaler (the catalog
    values and the two copies made by the classifier) and every pixel
    count: the scaler succeeds and changes only the two rate bounds; it
    multiplies them by 2.0 from 3840*2160 pixels on, by 1.0 from
    1920*1080 on, by 0.7 from 1280*720 on and by 0.4 below, the product
    being the binary64 product truncated to an integer; in the 1080p band
    the result is the setting itself, so applying the scaler again
    changes nothing; and a smaller pixel count never gives larger
    bounds. *)
Theorem resolution_scaler_bands (t : tier) (info : video_info) :
  In t base_tiers ->
  let pc := pixel_count info in
  exists t',
    adjust_vbv_for_resolution t info = Some t'
    /\ (crf t' = crf t /\ preset t' = preset t
        /\ audio_bitrate t' = audio_bitrate t
        /\ description t' = description t)
    /\ (3840 * 2160 <= pc ->
        scales_to (F64.of_Z 2) t t'
        /\ rate (vbv_maxrate t') = 2 * rate (vbv_maxrate t)
        /\ rate (vbv_bufsize t') = 2 * rate (vbv_bufsize t))
    /\ (1920 * 1080 <= pc < 3840 * 2160 ->
        scales_to (F64.of_Z 1) t t' /\ t' = t
        /\ adjust_vbv_for_resolution t' info = Some t')
    /\ (1280 * 720 <= pc < 1920 * 1080 -> scales_to (F64.lit 7 10) t t')
    /\ (pc < 1280 * 720 -> scales_to (F64.lit 4 10) t t')
    /\ (forall info' t'',
          pixel_count info' <= pc ->
          adjust_vbv_for_resolution t info' = Some t'' ->
          rate (vbv_maxrate t'') <= rate (vbv_maxrate t')
          /\ rate (vbv_bufsize t'') <= rate (vbv_bufsize t')).
Proof.
  intros Hin pc. subst pc. unfold adjust_vbv_for_resolution.
  unfold base_tiers in Hin. simpl in Hin.
  repeat (destruct Hin as [<- | Hin]); try destruct Hin;
    band_cases (pixel_count info) Hb Hm; rewrite Hm;
    (eexists; split; [by_computation|]);
    (split; [repeat split; reflexivity|]);
    (split; [intros; first [lia | repeat split; by_computation]|]);
    (split; [intros; first [lia | repeat split; try rewrite Hm; by_computation]|]);
    (split; [intros; first [lia | repeat split; by_computation]|]);
    (split; [intros; first [lia | repeat split; by_computation]|]);
    intros info' t'' Hle Hadj;
    band_cases (pixel_count info') Hb' Hm'; try lia;
    rewrite Hm' in Hadj; vm_compute in Hadj;
    injection Hadj as <-; split; by_computation.
Qed.

Lemma resolution_scaler_bands_witness :
  exists t',
    adjust_vbv_for_resolution t_aggressive (info_with 6000 (1280 * 720))
    = Some t'
    /\ scales_to (F64.lit 7 10) t_aggressive t'.
Proof.
  destruct (resolution_scaler_bands t_aggressive (info_with 6000 (1280 * 720)))
    as (t' & Ht' & _ & _ & _ & H720 & _).
  { vm_compute. auto 10. }
  exists t'. split; [exact Ht' | apply H720; vm_compute; split; [discriminate | reflexivity]].
Defined.

(** Binary64 is visible in the result: 0.7 is not a binary fraction, and
    the 720p bounds of "conservative-42" are 489k and 979k, one below the
    exact products 490 and 980; those of "aggressive" are the exact 840k
    and 1680k. *)
Lemma scaler_720p_values :
  apply_multiplier (F64.lit 7 10) t_conservative_42
  = Some (set_vbv "489k" "979k" t_conservative_42)
  /\ apply_multiplier (F64.lit 7 10) t_aggressive
     = Some (set_vbv "840k" "1680k" t_aggressive).
Proof. split; vm_compute; reflexivity. Qed.

End ScalerProperties.

(* ===================================================================== *)
(** * Properties of the CPU throttle *)
(* ===================================================================== *)

Section ThrottleProperties.
Import Throttle Spec.

Variable limit : F64.float.

(** One iteration either leaves the run state and the time stamp alone,
    or flips the state under the guard and stamps the time. *)
Lemma step_cases (th : throttle) (s : sample) :
  let e := smooth (ema th) (sys_pct s) in
  (step limit th s = (mk_throttle (Some e) (state th) (last_switch th), None))
  \/ (exists t st',
        step limit th s = (mk_throttle (Some e) st' (now s), Some t)
        /\ st' <> state th
        /\ t = mk_transition (leaving (state th)) e (last_switch th) (now s)
        /\ guarded limit t).
Proof.
  unfold step. destruct th as [e0 st ls]; simpl.
  destruct st.
  - destruct (F64.gtb _ limit) eqn:Hg; simpl; [|left; reflexivity].
    destruct (F64.geb _ min_on) eqn:Hd; [|left; reflexivity].
    right. eexists _, Off. repeat split; [discriminate | assumption | assumption].
  - destruct (F64.ltb _ _) eqn:Hg; simpl; [|left; reflexivity].
    destruct (F64.geb _ min_off) eqn:Hd; [|left; reflexivity].
    right. eexists _, On. repeat split; [discriminate | assumption | assumption].
Qed.

Lemma other_leaving (st st' : run_state) :
  st' <> st -> other (leaving st) = leaving st'.
Proof. destruct st, st'; simpl; congruence. Qed.

Lemma run_guarded (th : throttle) (samples : list sample) :
  Forall (guarded limit) (fst (run limit th samples))
  /\ chained (last_switch th) (leaving (state th)) (fst (run limit th samples)).
Proof.
  revert th. induction samples as [|s rest IH]; intros th; simpl.
  - split; [constructor | exact I].
  - destruct (step_cases th s) as [Hs | (t & st' & Hs & Hne & Ht & Hg)];
      rewrite Hs; clear Hs.
    + specialize (IH (mk_throttle (Some (smooth (ema th) (sys_pct s)))
                        (state th) (last_switch th))).
      destruct (run limit _ rest) as [ts final]. exact IH.
    + specialize (IH (mk_throttle (Some (smooth (ema th) (sys_pct s)))
                        st' (now s))).
      destruct (run limit _ rest) as [ts final]. simpl in *.
      destruct IH as [IH1 IH2]. split.
      * constructor; assumption.
      * subst t; simpl. repeat split.
        rewrite (other_leaving _ _ Hne). exact IH2.
Qed.

(** The smoothed load of the worker is the exponential moving average of
    all samples so far. *)
Lemma run_ema (th : throttle) (samples : list sample) :
  ema (snd (run limit th samples))
  = foldl (fun e x => Some (smooth e x)) (ema th) (map sys_pct samples).
Proof.
  revert th. induction samples as [|s rest IH]; intros th; simpl; [reflexivity|].
  destruct (step_cases th s) as [Hs | (t & st' & Hs & _)]; rewrite Hs;
    specialize (IH (fst (step limit th s))); rewrite Hs in IH; simpl in IH;
    destruct (run limit _ rest) as [ts final]; exact IH.
Qed.

End ThrottleProperties.

(** C7. Whatever the load samples and clock readings, every change of
    the run state made by the worker is guarded: it suspends only with
    the moving average above the ceiling and at least 0.6 s after the
    previous change (or the start), and resumes only with the moving
    average below the ceiling minus 10 and at least 0.4 s after the
    previous change; the changes alternate, each dwell time being
    measured from the change before. *)
Theorem throttle_changes_are_guarded (cpu_limit_percent : Z)
  (start : F64.float) (samples : list Throttle.sample) :
  let ts := fst (Throttle.worker cpu_limit_percent start samples) in
  Forall (Spec.guarded (F64.of_Z cpu_limit_percent)) ts
  /\ Spec.chained start Throttle.Suspend ts
  /\ Throttle.min_on = F64.lit 6 10 /\ Throttle.min_off = F64.lit 4 10
  /\ Throttle.ema (snd (Throttle.worker cpu_limit_percent start samples))
     = Spec.ema_of (map Throttle.sys_pct samples).
Proof.
  cbv zeta. unfold Throttle.worker.
  pose proof (run_guarded (F64.of_Z cpu_limit_percent)
                (Throttle.mk_throttle None Throttle.On start) samples) as [H1 H2].
  repeat split; try assumption.
  apply run_ema.
Qed.

(** A run with both changes: 95% load suspends the encoder after one
    second, 10% load resumes it half a second later. *)
Example throttle_run :
  map Throttle.tr_action
    (fst (Throttle.worker 85 (F64.of_Z 0)
            [ Throttle.mk_sample (F64.of_Z 95) (F64.of_Z 1);
              Throttle.mk_sample (F64.of_Z 10) (F64.lit 15 10);
              Throttle.mk_sample (F64.of_Z 10) (F64.lit 17 10) ]))
  = [Throttle.Suspend; Throttle.Resume].
Proof. vm_compute. reflexivity. Qed.

(* ===================================================================== *)
(** * Properties of the scan strategy *)
(* ===================================================================== *)

Section ScanProperties.
Import Scan.


(** The first cycle of a run is a full scan. *)
Lemma first_cycle_is_full (last : F64.float) (t current_time : F64.float) :
  scan_strategy (mk_scan_state last 0) t current_time = FullScan.
Proof.
  unfold scan_strategy, should_full_scan, force_full; simpl.
  rewrite orb_true_r. reflexivity.
Qed.

(** A full scan, and an incremental one that falls back, stamp the time;
    an incremental scan that lists the folders does not. *)
Lemma cycle_stamp (st : scan_state) (t current_time : F64.float)
  (listing_fails : bool) :
  let '(s, st') := cycle st t current_time listing_fails in
  scan_counter st' = scan_counter st + 1
  /\ (s = FullScan -> last_full_scan_time st' = current_time)
  /\ (s = IncrementalScan -> listing_fails = false ->
      last_full_scan_time st' = last_full_scan_time st).
Proof.
  unfold cycle. destruct (scan_strategy st t current_time); simpl.
  - repeat split; intros; try discriminate; reflexivity.
  - repeat split; intros; try discriminate; subst; reflexivity.
Qed.

Lemma positive_is_nonzero (x : F64.float) :
  F64.gtb x (F64.of_Z 0) = true -> F64.eqb x (F64.of_Z 0) = false.
Proof.
  destruct x as [s | s | | s m e]; try destruct s; vm_compute;
    intros H; try discriminate; reflexivity.
Qed.

(** In a run that starts from [initial] with a clock that reads positive
    times, the stamp is zero in the first cycle only, and the counter
    counts the cycles done. *)
Lemma stamp_zero_only_at_first_cycle
  (inputs : list (F64.float * F64.float * bool)) :
  Forall (fun i => F64.gtb (snd (fst i)) (F64.of_Z 0) = true) inputs ->
  let st := cycles initial inputs in
  scan_counter st = Z.of_nat (length inputs)
  /\ (inputs <> [] -> F64.eqb (last_full_scan_time st) (F64.of_Z 0) = false).
Proof.
  induction inputs as [|i inputs IH] using rev_ind; intros Hpos.
  - split; [reflexivity | congruence].
  - apply Forall_app in Hpos as [Hpos Hi]. inversion Hi as [|? ? Hct _]; subst.
    specialize (IH Hpos). cbv zeta in *. destruct IH as [IHc IHs].
    unfold cycles in *. rewrite foldl_app. simpl.
    set (st := foldl _ initial inputs) in *.
    split.
    + rewrite length_app. simpl. unfold cycle; simpl. lia.
    + intros _. unfold cycle; simpl.
      destruct (scan_strategy st _ _) eqn:Hs.
      * apply positive_is_nonzero, Hct.
      * destruct (snd i); [apply positive_is_nonzero, Hct|].
        destruct inputs as [|i0 inputs0].
        -- subst st. cbn [foldl] in Hs. unfold initial in Hs.
           rewrite first_cycle_is_full in Hs. discriminate.
        -- apply IHs. discriminate.
Qed.

End ScanProperties.

(* ===================================================================== *)
(** * Properties of the encode supervisor *)
(* ===================================================================== *)

Section SupervisorProperties.
Import Supervisor Spec.

(** Events of the throttle thread and the exit of the encoder do not
    reach the stall check: only a line does. *)
Lemma no_line_no_kill (duration : F64.float) (st : loop_state)
  (events : list event) :
  Forall (fun e => match e with Line _ _ _ => False | _ => True end) events ->
  exists st',
    read_loop duration st events = StreamOpen st'
    /\ calls (w st') = calls (w st)
    /\ last_progress_time st' = last_progress_time st.
Proof.
  revert st. induction events as [|e rest IH]; intros st Hev.
  - exists st. repeat split.
  - inversion Hev as [|? ? He Hrest]; subst.
    destruct e as [? ? ? | | | rc]; [destruct He | | |]; simpl;
      match goal with
      | |- context [read_loop duration ?s rest] =>
          destruct (IH s Hrest) as (st' & Hr & Hc & Hl)
      end;
      exists st'; repeat split; assumption.
Qed.

(** A stall kill happens in the iteration of a line, and only there. *)
Lemma stall_kill_needs_a_line (duration : F64.float) (st st' : loop_state)
  (events : list event) (at_time : F64.float) :
  read_loop duration st events = Raised (StalledKilled at_time) st' ->
  exists before text after last,
    events = before ++ Line false at_time text :: after
    /\ F64.gtb (F64.sub at_time last) stuck_timeout = true.
Proof.
  revert st. induction events as [|e rest IH]; intros st H; [discriminate|].
  simpl in H. destruct (on_event duration st e) as [st1 | o st1] eqn:He.
  - destruct (IH _ H) as (before & text & after & last & -> & Hgt).
    exists (e :: before), text, after, last. split; [reflexivity | assumption].
  - injection H as -> ->.
    destruct e as [stop ct text | | | rc]; simpl in He; try discriminate.
    destruct stop; [discriminate|].
    destruct (F64.gtb _ stuck_timeout) eqn:Hgt.
    + injection He as <- _. exists [], text, rest, (last_progress_time st).
      split; [reflexivity | assumption].
    + destruct (parse_line duration text); discriminate.
Qed.

(** C1, at its failing inputs. An encoder that never writes a line is
    never killed: the loop stays blocked in the read, with no call made,
    whether the encoder runs or has been suspended by the throttle. The
    stall check runs when a line arrives: with the first line 1000 s
    after the start, the kill happens then and not after 60 s. *)
Theorem silent_encoder_is_not_killed :
  let duration := F64.of_Z 120 in
  read_loop duration (started (F64.of_Z 0)) []
  = StreamOpen (started (F64.of_Z 0))
  /\ read_loop duration (started (F64.of_Z 0)) [ThrottleSuspend]
     = StreamOpen (mk_loop_state (F64.of_Z 0) (mk_world Suspended []))
  /\ read_loop duration (started (F64.of_Z 0))
       [Line false (F64.of_Z 1000) "progress=continue"]
     = Raised (StalledKilled (F64.of_Z 1000))
         (mk_loop_state (F64.of_Z 0) (mk_world Killed [Kill])).
Proof. repeat split; vm_compute; reflexivity. Qed.

(** What the check does do: lines that keep arriving without a
    recognised progress field get the encoder killed at the first line
    read more than 60 s after the last progress. *)
Example stall_detected_on_unrecognised_lines :
  read_loop (F64.of_Z 120) (started (F64.of_Z 0))
    [ Line false (F64.of_Z 10) "out_time_ms=5000000";
      Line false (F64.of_Z 40) "frame=12";
      Line false (F64.of_Z 70) "total_size=N/A";
      Line false (F64.of_Z 71) "out_time_ms=oops" ]
  = Raised (StalledKilled (F64.of_Z 71))
      (mk_loop_state (F64.of_Z 10) (mk_world Killed [Kill])).
Proof. vm_compute. reflexivity. Qed.

Lemma do_call_kill_dead (wd : world) : alive (proc (do_call Kill wd)) = false.
Proof. unfold do_call; simpl. destruct (proc wd); reflexivity. Qed.

Lemma read_loop_raised (duration : F64.float) (st st' : loop_state)
  (events : list event) (o : outcome) :
  read_loop duration st events = Raised o st' ->
  o = Crashed \/ alive (proc (w st')) = false.
Proof.
  revert st. induction events as [|e rest IH]; intros st H; [discriminate|].
  simpl in H. destruct (on_event duration st e) as [st1 | o1 st1] eqn:He.
  - exact (IH _ H).
  - injection H as -> ->.
    destruct e as [stop ct text | | | rc]; simpl in He; try discriminate.
    destruct stop.
    { injection He as <- <-. right. apply do_call_kill_dead. }
    destruct (F64.gtb _ stuck_timeout).
    { injection He as <- <-. right. apply do_call_kill_dead. }
    destruct (parse_line duration text); try discriminate.
    injection He as <- _. left. reflexivity.
Qed.

Lemma wait_dead (rc : Z) (wd : world) : alive (proc (wait rc wd)) = false.
Proof. unfold wait, encoder_exit; simpl. destruct (proc wd); reflexivity. Qed.

Lemma cleanup_spec (thread_alive : bool) (wd : world) :
  let w1 := cleanup thread_alive wd in
  calls w1
  = calls wd ++ [SetThrottleStop]
    ++ (if alive (proc wd) then [ForceResume] else [])
    ++ (if thread_alive then [JoinThrottle] else [])
  /\ proc w1 = match proc wd with Suspended => Running | p => p end.
Proof.
  unfold cleanup. destruct wd as [p cs].
  destruct p, thread_alive; simpl; rewrite <- ?app_assoc; split; reflexivity.
Qed.

(** What the teardown block does on an encoder that is still alive: it
    sets the stop event, resumes the encoder, suspended or not, and only
    then joins the throttle thread. *)
Lemma cleanup_resumes_before_join (thread_alive : bool) (wd : world) :
  alive (proc wd) = true ->
  let w1 := cleanup thread_alive wd in
  proc w1 = Running
  /\ calls w1
     = calls wd ++ [SetThrottleStop; ForceResume]
       ++ (if thread_alive then [JoinThrottle] else []).
Proof.
  intros Halive.
  destruct (cleanup_spec thread_alive wd) as [Hc Hp]. cbv zeta.
  rewrite Hc, Hp, Halive. split; [|reflexivity].
  destruct (proc wd); try discriminate; reflexivity.
Qed.

(** A run that returns, otherwise than by an exception of the loop body,
    leaves the encoder dead: it returns after [wait] or after [kill]. *)
Lemma returned_encoder_is_dead (duration start_time : F64.float)
  (events : list event) (returncode : Z) (thread_alive : bool)
  (o : outcome) (w1 : world) :
  run_ffmpeg duration start_time events returncode thread_alive = Some (o, w1) ->
  o <> Crashed ->
  alive (proc w1) = false.
Proof.
  unfold run_ffmpeg.
  destruct (read_loop _ _ events) as [st | o' st] eqn:Hloop.
  - assert (Hdead : alive (proc (cleanup thread_alive
                                   (wait returncode (w st)))) = false).
    { destruct (cleanup_spec thread_alive (wait returncode (w st))) as [_ Hp].
      cbv zeta in Hp. rewrite Hp.
      pose proof (wait_dead returncode (w st)) as Hw.
      destruct (proc (wait returncode (w st))); try discriminate; reflexivity. }
    destruct (proc (w st)); try discriminate;
      cbv zeta; destruct (_ =? 0); intros [= <- <-] _; exact Hdead.
  - intros [= <- <-] Hnc.
    destruct (read_loop_raised _ _ _ _ _ Hloop) as [-> | Hdead]; [done|].
    exact Hdead.
Qed.

(** C2, at its failing inputs. The teardown block comes after the read
    loop and after [wait], outside any [finally]; the worker leaves its
    loop at a stop without resuming. With a load of 95 % one second after
    the start the worker suspends the encoder; when the user then stops
    the run, the worker ends in state "off", the suspended encoder writes
    no line, the read stays blocked with no call made, neither the kill
    nor the teardown is reached, and the encoder stays suspended. Had the
    worker resumed it, the same run would return through the teardown;
    only a line still in the pipe lets the stop reach the kill. An
    exception raised by a line leaves [run_ffmpeg] at once, again with the
    encoder suspended and no call made. *)
Theorem stop_while_suspended_strands_the_encoder :
  let duration := F64.of_Z 120 in
  let start := F64.of_Z 0 in
  let held :=
    Throttle.worker 85 start
      [Throttle.mk_sample (F64.of_Z 95) (F64.of_Z 1)] in
  let released :=
    Throttle.worker 85 start
      [ Throttle.mk_sample (F64.of_Z 95) (F64.of_Z 1);
        Throttle.mk_sample (F64.of_Z 10) (F64.lit 15 10);
        Throttle.mk_sample (F64.of_Z 10) (F64.lit 17 10) ] in
  map Throttle.tr_action (fst held) = [Throttle.Suspend]
  /\ Throttle.state (snd held) = Throttle.Off
  /\ read_loop duration (started start) (Links.throttle_events (fst held))
     = StreamOpen (mk_loop_state start (mk_world Suspended []))
  /\ run_ffmpeg duration start (Links.throttle_events (fst held)) 0 true
     = None
  /\ run_ffmpeg duration start (Links.throttle_events (fst released)) 0 true
     = Some (Completed, mk_world (Exited 0) [SetThrottleStop; JoinThrottle])
  /\ run_ffmpeg duration start
       (Links.throttle_events (fst held)
        ++ [Line true (F64.of_Z 2) "frame=1"]) 0 true
     = Some (UserCancelled, mk_world Killed [Kill])
  /\ run_ffmpeg duration start
       (Links.throttle_events (fst held)
        ++ [Line false (F64.of_Z 2)
              (String.append "out_time_ms=" (PyStr.of_int (10 ^ 400)))])
       0 true
     = Some (Crashed, mk_world Suspended []).
Proof. repeat split; vm_compute; reflexivity. Qed.

(** The four ways out, on concrete runs: the stream closes and the
    encoder exits with 0 or with 1; a line arrives late; a line arrives
    with the stop event set while the encoder is suspended. *)
Example exit_paths :
  run_ffmpeg (F64.of_Z 120) (F64.of_Z 0)
    [Line false (F64.of_Z 1) "out_time_ms=1000000"] 0 true
  = Some (Completed, mk_world (Exited 0) [SetThrottleStop; JoinThrottle])
  /\ run_ffmpeg (F64.of_Z 120) (F64.of_Z 0)
       [Line false (F64.of_Z 1) "out_time_ms=1000000"; EncoderExit 1] 0 false
     = Some (Failed 1, mk_world (Exited 1) [SetThrottleStop])
  /\ run_ffmpeg (F64.of_Z 120) (F64.of_Z 0)
       [Line false (F64.of_Z 61) "frame=1"] 0 true
     = Some (StalledKilled (F64.of_Z 61), mk_world Killed [Kill])
  /\ run_ffmpeg (F64.of_Z 120) (F64.of_Z 0)
       [ThrottleSuspend; Line true (F64.of_Z 5) "frame=1"] 0 true
     = Some (UserCancelled, mk_world Killed [Kill]).
Proof. repeat split; vm_compute; reflexivity. Qed.

Lemma read_loop_no_resume (duration : F64.float) (events : list event) :
  forall st,
    ~ In ForceResume (calls (w st)) ->
    ~ In ForceResume
        (calls (w match read_loop duration st events with
                  | StreamOpen s | Raised _ s => s
                  end)).
Proof.
  induction events as [|e rest IH]; intros st Hst; simpl; [exact Hst|].
  assert (Hk : ~ In ForceResume (calls (do_call Kill (w st)))).
  { simpl. rewrite in_app_iff. intros [H | [H | []]];
      [exact (Hst H) | discriminate]. }
  destruct e as [stop ct text | | | rc]; simpl.
  - destruct stop; [exact Hk|].
    destruct (F64.gtb _ stuck_timeout); [exact Hk|].
    destruct (parse_line duration text); simpl; try exact Hst;
      apply IH; exact Hst.
  - apply IH. exact Hst.
  - apply IH. exact Hst.
  - apply IH. exact Hst.
Qed.

(** In a whole run the cleanup comes after [wait], so it finds the
    encoder dead: its resume is never called. *)
Lemma cleanup_after_wait_never_resumes (duration start_time : F64.float)
  (events : list event) (returncode : Z) (thread_alive : bool)
  (o : outcome) (w1 : world) :
  run_ffmpeg duration start_time events returncode thread_alive = Some (o, w1) ->
  ~ In ForceResume (calls w1).
Proof.
  unfold run_ffmpeg.
  pose proof (read_loop_no_resume duration events
                (mk_loop_state start_time (mk_world Running []))
                (fun H => H)) as Hloop.
  destruct (read_loop _ _ events) as [st | o' st]; simpl in Hloop.
  - assert (Hgoal : ~ In ForceResume
                      (calls (cleanup thread_alive (wait returncode (w st))))).
    { destruct (cleanup_spec thread_alive (wait returncode (w st))) as [Hc _].
      cbv zeta in Hc. rewrite Hc, (wait_dead returncode (w st)). simpl.
      rewrite in_app_iff. intros [H | H]; [exact (Hloop H)|].
      simpl in H. destruct H as [H | H]; [discriminate|].
      destruct thread_alive; simpl in H;
        [destruct H as [H | []]; discriminate | destruct H]. }
    destruct (proc (w st)); try discriminate;
      cbv zeta; destruct (_ =? 0); intros [= <- <-]; exact Hgoal.
  - intros [= <- <-]. exact Hloop.
Qed.

(** A run that does not return: the throttle has suspended the encoder
    and no line arrives any more (the worker leaves its loop without a
    resume once a stop event is set). The read stays blocked, neither
    kill check is reached, and the encoder stays suspended. *)
Lemma suspended_encoder_blocks_the_read (duration start_time : F64.float)
  (returncode : Z) (thread_alive : bool) :
  run_ffmpeg duration start_time [ThrottleSuspend] returncode thread_alive
  = None
  /\ read_loop duration (started start_time) [ThrottleSuspend]
     = StreamOpen (mk_loop_state start_time (mk_world Suspended [])).
Proof. split; reflexivity. Qed.

End SupervisorProperties.

(* ===================================================================== *)
(** * Properties of the round-robin scheduler *)
(* ===================================================================== *)

Section RoundRobinProperties.
Import RoundRobin Spec.


Lemma files_of_app c l k : files_of c (l ++ k) = files_of c l ++ files_of c k.
Proof. apply filter_app. Qed.

Lemma files_of_all c l :
  Forall (fun f => camera_folder f = Some c) l -> files_of c l = l.
Proof.
  induction 1 as [|f l Hf _ IH]; [reflexivity|].
  unfold files_of in *. rewrite filter_cons_True by exact Hf. by rewrite IH.
Qed.

Lemma files_of_none c l :
  Forall (fun f => camera_folder f <> Some c) l -> files_of c l = [].
Proof.
  induction 1 as [|f l Hf _ IH]; [reflexivity|].
  unfold files_of in *. by rewrite filter_cons_False.
Qed.

Lemma files_of_Forall c l : Forall (fun f => camera_folder f = Some c) (files_of c l).
Proof. apply Forall_forall. intros f Hf. by apply list_elem_of_filter in Hf as [? _]. Qed.

Lemma group_files_snoc l f : group_files (l ++ [f]) = add_file (group_files l) f.
Proof. unfold group_files. by rewrite foldl_app. Qed.

Lemma group_lookup l c : group_files l !!! c = files_of c l.
Proof.
  induction l as [|f l IH] using rev_ind;
    [unfold group_files; simpl; by rewrite lookup_total_empty|].
  rewrite group_files_snoc, files_of_app. unfold add_file.
  destruct (camera_folder f) as [c'|] eqn:Hf.
  - destruct (decide (c' = c)) as [->|Hne].
    + rewrite lookup_total_insert_eq, IH. f_equal.
      unfold files_of. by rewrite filter_cons_True.
    + rewrite lookup_total_insert_ne by done. rewrite IH.
      unfold files_of at 3. rewrite filter_cons_False by congruence.
      by rewrite app_nil_r.
  - rewrite IH. unfold files_of at 3. rewrite filter_cons_False by congruence.
    by rewrite app_nil_r.
Qed.

Lemma group_dom l c : c ∈ dom (group_files l) <-> files_of c l <> [].
Proof.
  induction l as [|f l IH] using rev_ind.
  - unfold group_files; simpl. rewrite dom_empty_L. set_solver.
  - rewrite group_files_snoc, files_of_app. unfold add_file.
    destruct (camera_folder f) as [c'|] eqn:Hf.
    + rewrite dom_insert_L, elem_of_union, elem_of_singleton, IH.
      destruct (decide (c = c')) as [->|Hne].
      * unfold files_of at 3. rewrite filter_cons_True by done.
        split; [intros _ | auto]. by intros [_ ?]%app_eq_nil.
      * unfold files_of at 3. rewrite filter_cons_False by congruence.
        rewrite app_nil_r. split; [intros [?|?]; done | auto].
    + rewrite IH. unfold files_of at 3. rewrite filter_cons_False by congruence.
      by rewrite app_nil_r.
Qed.


(** ** The cameras *)

Lemma sorted_cameras_perm m : sorted_cameras m ≡ₚ elements (dom m).
Proof. apply merge_sort_Permutation. Qed.

Lemma sorted_cameras_NoDup m : NoDup (sorted_cameras m).
Proof. rewrite sorted_cameras_perm. apply NoDup_elements. Qed.

Lemma sorted_cameras_elem m c : c ∈ sorted_cameras m <-> c ∈ dom m.
Proof. rewrite sorted_cameras_perm. apply elem_of_elements. Qed.

Lemma sorted_cameras_Sorted m : Sorted String.le (sorted_cameras m).
Proof. apply Sorted_merge_sort. apply _. Qed.

Lemma rotate_perm start l : rotate start l ≡ₚ l.
Proof.
  unfold rotate. destruct start as [[|a s]|]; try done.
  destruct (index _ l) as [i|]; [|done].
  rewrite Permutation_app_comm. by rewrite take_drop.
Qed.

Lemma index_Some x l i : index x l = Some i -> l !! i = Some x.
Proof.
  revert i. induction l as [|y l IH]; intros i; simpl; [done|].
  destruct (String.eqb_spec y x) as [->|Hne].
  - by intros [= <-].
  - destruct (index x l) as [j|]; simpl; [|done]. intros [= <-]. by apply IH.
Qed.

Lemma index_elem x l : x ∈ l -> is_Some (index x l).
Proof.
  induction 1 as [x l | x y l _ IH]; simpl.
  - rewrite String.eqb_refl. by eexists.
  - destruct (String.eqb y x); [by eexists|]. destruct IH as [j ->]. by eexists.
Qed.


(** ** One batch, one round, the loop *)

Lemma flat_map_ext_elem {A B} (f g : A -> list B) (l : list A) :
  (forall x, x ∈ l -> f x = g x) -> flat_map f l = flat_map g l.
Proof.
  induction l as [|x l IH]; intros H; simpl; [done|].
  rewrite H by left. rewrite IH; [done|]. intros y Hy. apply H. by right.
Qed.


Lemma take_batch_view b m out c :
  let '(m1, out1) := take_batch b (m, out) c in
  out1 = out ++ take b (m !!! c)
  /\ m1 !!! c = drop b (m !!! c)
  /\ (forall c', c' <> c -> m1 !!! c' = m !!! c').
Proof.
  unfold take_batch. destruct (m !!! c) as [|f q] eqn:Hq; simpl.
  - rewrite Hq, take_nil, drop_nil, app_nil_r. done.
  - rewrite lookup_total_insert_eq. repeat split.
    intros c' Hne. by rewrite lookup_total_insert_ne.
Qed.

Lemma round_view b cams : NoDup cams -> forall m out,
  let '(m1, out1) := foldl (take_batch b) (m, out) cams in
  out1 = out ++ flat_map (fun c => take b (m !!! c)) cams
  /\ (forall c, c ∈ cams -> m1 !!! c = drop b (m !!! c))
  /\ (forall c, c ∉ cams -> m1 !!! c = m !!! c).
Proof.
  induction 1 as [|c cams Hc Hnd IH]; intros m out; cbn [foldl flat_map].
  - rewrite app_nil_r. repeat split. intros c []%elem_of_nil.
  - pose proof (take_batch_view b m out c) as Hv.
    destruct (take_batch b (m, out) c) as [m1 out1].
    destruct Hv as (-> & Hc1 & Hother).
    specialize (IH m1 (out ++ take b (m !!! c))).
    destruct (foldl _ _ cams) as [m2 out2].
    destruct IH as (-> & Hin & Hout). repeat split.
    + rewrite <- app_assoc. do 2 f_equal.
      apply flat_map_ext_elem. intros c' Hc'.
      rewrite Hother; [done|]. intros ->. done.
    + intros c' [->|Hc']%elem_of_cons.
      * rewrite Hout by done. done.
      * rewrite Hin by done. rewrite Hother; [done|]. intros ->. done.
    + intros c' Hc'%not_elem_of_cons. destruct Hc' as [Hne Hc'].
      rewrite Hout by done. by apply Hother.
Qed.

Lemma any_pending_spec (m : gmap string (list string)) :
  any_pending m = true <-> exists c, m !!! c <> [].
Proof.
  unfold any_pending. rewrite bool_decide_eq_true. unfold map_Exists. split.
  - intros (c & q & Hq & Hne). exists c. by rewrite lookup_total_alt, Hq.
  - intros (c & Hne). rewrite lookup_total_alt in Hne.
    destruct (m !! c) as [q|] eqn:Hq; [|done]. by exists c, q.
Qed.

Lemma rounds_S queue b cams n :
  rounds queue b cams (S n) = rounds queue b cams n ++ round queue b cams n.
Proof.
  unfold rounds. rewrite seq_S, flat_map_app. simpl. by rewrite app_nil_r.
Qed.

Section Loop.
Variable queue : string -> list string.
Variable b : nat.
Variable cams : list string.
Hypothesis cams_NoDup : NoDup cams.
Hypothesis cams_cover : forall c, c ∉ cams -> queue c = [].

Lemma rr_loop_closed fuel : forall r m out,
  (forall c, m !!! c = drop (r * b) (queue c)) ->
  out = rounds queue b cams r ->
  exists n,
    (r <= n <= r + fuel)%nat
    /\ rr_loop fuel b cams m out = rounds queue b cams n
    /\ ((n < r + fuel)%nat -> forall c, drop (n * b) (queue c) = [])
    /\ ((0 < fuel)%nat -> (exists c, m !!! c <> []) -> (r < n)%nat).
Proof.
  induction fuel as [|fuel IH]; intros r m out Hm Hout; simpl.
  - exists r. repeat split; [lia | lia | done | lia | lia].
  - destruct (any_pending m) eqn:Hany.
    + pose proof (round_view b cams cams_NoDup m out) as Hv.
      destruct (foldl _ _ cams) as [m1 out1].
      destruct Hv as (-> & Hin & Hout1).
      destruct (IH (S r) m1 (out ++ flat_map (fun c => take b (m !!! c)) cams))
        as (n & Hn & Hres & Hdrained & _).
      * intros c. destruct (decide (c ∈ cams)) as [Hc|Hc].
        -- rewrite Hin, Hm by done. rewrite drop_drop. f_equal. lia.
        -- rewrite Hout1, Hm by done. rewrite cams_cover by done.
           by rewrite !drop_nil.
      * rewrite rounds_S, Hout. f_equal. unfold round.
        apply flat_map_ext. intros c. unfold batch. by rewrite Hm.
      * exists n. repeat split; [lia | lia | done | | lia].
        intros Hlt. apply Hdrained. lia.
    + exists r. repeat split; [lia | lia | done | | ].
      * intros _ c. rewrite <- Hm.
        destruct (m !!! c) eqn:Hq; [done|].
        assert (any_pending m = true) as Habs; [|congruence].
        apply any_pending_spec. exists c. by rewrite Hq.
      * intros _ Hex. apply any_pending_spec in Hex. congruence.
Qed.

End Loop.

Lemma max_iterations_pos : (0 < max_iterations)%nat.
Proof. unfold max_iterations. lia. Qed.

(** The schedule in closed form. *)
Lemma organize_closed files b start :
  let cams := rotate start (sorted_cameras (group_files files)) in
  let queue := fun c => files_of c files in
  NoDup cams
  /\ (forall c, c ∈ cams <-> queue c <> [])
  /\ exists n,
      (n <= max_iterations)%nat
      /\ _organize_files_round_robin files b start = rounds queue b cams n
      /\ ((n < max_iterations)%nat -> forall c, drop (n * b) (queue c) = [])
      /\ (cams <> [] -> (0 < n)%nat).
Proof.
  intros cams queue.
  assert (Hnd : NoDup cams).
  { unfold cams. rewrite rotate_perm. apply sorted_cameras_NoDup. }
  assert (Hmem : forall c, c ∈ cams <-> queue c <> []).
  { intros c. unfold cams. rewrite rotate_perm, sorted_cameras_elem.
    apply group_dom. }
  split; [done|]. split; [done|].
  destruct (rr_loop_closed queue b cams Hnd) with
    (fuel := max_iterations) (r := 0%nat) (m := group_files files)
    (out := @nil string) as (n & Hn & Hres & Hdrained & Hpos).
  - intros c Hc. destruct (queue c) eqn:Hq; [done|].
    exfalso. apply Hc, Hmem. by rewrite Hq.
  - intros c. simpl. apply group_lookup.
  - done.
  - exists n. split; [lia|]. split; [exact Hres|]. split; [exact Hdrained|].
    intros Hne. apply Hpos; [apply max_iterations_pos|].
    destruct cams as [|c cams']; [done|]. exists c.
    rewrite group_lookup. apply Hmem. left.
Qed.

(** ** Counting the files of a camera in the closed form *)

Section Counting.
Variable files : list string.
Variable b : nat.
Variable cams : list string.
Hypothesis cams_NoDup : NoDup cams.
Local Abbreviation queue := (fun c => files_of c files).
Hypothesis cams_cover : forall c, c ∉ cams -> files_of c files = [].

Lemma batch_Forall r c :
  Forall (fun f => camera_folder f = Some c) (batch queue b r c).
Proof. unfold batch. apply Forall_take, Forall_drop, files_of_Forall. Qed.

Lemma files_of_sub c c' l :
  Forall (fun f => camera_folder f = Some c') l ->
  files_of c l = if decide (c = c') then l else [].
Proof.
  intros Hl. destruct (decide (c = c')) as [->|Hne].
  - by apply files_of_all.
  - apply files_of_none. eapply Forall_impl; [exact Hl|]. simpl. congruence.
Qed.

Lemma length_batch r c :
  length (batch queue b r c) = (b `min` (count_of c files - r * b))%nat.
Proof. unfold batch, count_of. by rewrite length_take, length_drop. Qed.

Lemma count_batch r c c' :
  count_of c (batch queue b r c')
  = if decide (c = c') then (b `min` (count_of c files - r * b))%nat else 0%nat.
Proof.
  unfold count_of at 1. rewrite (files_of_sub c c') by apply batch_Forall.
  destruct (decide (c = c')) as [->|]; [apply length_batch | done].
Qed.

Lemma count_of_app c l k : count_of c (l ++ k) = (count_of c l + count_of c k)%nat.
Proof. unfold count_of. by rewrite files_of_app, length_app. Qed.

Lemma count_flat_batch r c l :
  NoDup l ->
  count_of c (flat_map (batch queue b r) l)
  = if decide (c ∈ l) then (b `min` (count_of c files - r * b))%nat else 0%nat.
Proof.
  induction 1 as [|c' l Hc' Hnd IH]; cbn [flat_map].
  - case_decide as H; [by apply elem_of_nil in H | done].
  - rewrite count_of_app, count_batch, IH.
    destruct (decide (c = c')) as [->|Hne].
    + rewrite (decide_False (P := c' ∈ l)) by done.
      rewrite (decide_True (P := c' ∈ c' :: l)) by left. lia.
    + destruct (decide (c ∈ l)) as [Hin|Hnin].
      * rewrite decide_True by (by right). done.
      * rewrite decide_False; [done|]. by intros [?|?]%elem_of_cons.
Qed.

Lemma count_rounds n c :
  count_of c (rounds queue b cams n) = ((n * b) `min` count_of c files)%nat.
Proof.
  induction n as [|n IH].
  - unfold rounds; simpl. unfold count_of at 1. simpl. lia.
  - rewrite rounds_S, count_of_app, IH. unfold round.
    rewrite count_flat_batch by done.
    destruct (decide (c ∈ cams)) as [Hin|Hnin]; [lia|].
    assert (count_of c files = 0%nat) as Hz
      by (unfold count_of; by rewrite cams_cover).
    lia.
Qed.

End Counting.


(** ** Prefixes of the closed form *)

Lemma prefix_app_cases {A} (p l1 l2 : list A) :
  p `prefix_of` l1 ++ l2 ->
  p `prefix_of` l1 \/ exists q, p = l1 ++ q /\ q `prefix_of` l2.
Proof.
  revert p. induction l1 as [|x l1 IH]; intros p Hp; simpl in *.
  - right. by exists p.
  - destruct p as [|y p]; [left; apply prefix_nil|].
    pose proof (prefix_cons_inv_1 _ _ _ _ Hp) as ->.
    apply prefix_cons_inv_2 in Hp.
    destruct (IH p Hp) as [Hl | (q & -> & Hq)].
    + left. by apply prefix_cons.
    + right. by exists q.
Qed.

Lemma prefix_flat_map {A B} (f : A -> list B) (l : list A) (p : list B) :
  p `prefix_of` flat_map f l ->
  exists l1 l2 q,
    l = l1 ++ l2 /\ p = flat_map f l1 ++ q
    /\ (q = [] \/ exists x l2', l2 = x :: l2' /\ q `prefix_of` f x).
Proof.
  revert p. induction l as [|x l IH]; intros p Hp; simpl in Hp.
  - apply prefix_nil_inv in Hp as ->. exists [], [], []. auto.
  - destruct (prefix_app_cases _ _ _ Hp) as [Hx | (q & -> & Hq)].
    + exists [], (x :: l), p. repeat split. right. by exists x, l.
    + destruct (IH q Hq) as (l1 & l2 & q' & -> & -> & Hq').
      exists (x :: l1), l2, q'. repeat split; [|done].
      simpl. by rewrite app_assoc.
Qed.

Lemma prefix_rounds queue b cams n p :
  p `prefix_of` rounds queue b cams n ->
  exists r done todo q,
    (r <= n)%nat /\ cams = done ++ todo
    /\ p = rounds queue b cams r ++ flat_map (batch queue b r) done ++ q
    /\ (q = [] \/ exists c todo', todo = c :: todo'
                                  /\ q `prefix_of` batch queue b r c).
Proof.
  induction n as [|n IH]; intros Hp.
  - unfold rounds in Hp; simpl in Hp. apply prefix_nil_inv in Hp as ->.
    exists 0%nat, [], cams, []. repeat split; auto.
  - rewrite rounds_S in Hp.
    destruct (prefix_app_cases _ _ _ Hp) as [Hl | (q & -> & Hq)].
    + destruct (IH Hl) as (r & dn & todo & q & Hr & Hc & Hpq & Hq).
      exists r, dn, todo, q. repeat split; [lia | done | done | done].
    + destruct (prefix_flat_map _ _ _ Hq) as (dn & todo & q' & Hc & -> & Hq').
      exists n, dn, todo, q'. repeat split; [lia | done | done].
Qed.


(** ** Fairness *)

Lemma count_of_le_length c l : (count_of c l <= length l)%nat.
Proof. apply length_filter. Qed.

Lemma count_in_window files b start p c :
  p `prefix_of` _organize_files_round_robin files b start ->
  (count_of c p < count_of c files)%nat ->
  exists r, (r * b <= count_of c p <= r * b + b)%nat
            /\ forall c', (count_of c' p < count_of c' files)%nat ->
                          (r * b <= count_of c' p <= r * b + b)%nat.
Proof.
  intros Hp Hc.
  destruct (organize_closed files b start) as (Hnd & Hmem & n & _ & Hres & _).
  set (cams := rotate start (sorted_cameras (group_files files))) in *.
  rewrite Hres in Hp.
  destruct (prefix_rounds _ _ _ _ _ Hp) as (r & dn & todo & q & _ & Hcams & -> & Hq).
  assert (Hcover : forall c, c ∉ cams -> files_of c files = []).
  { intros c0 Hc0. destruct (files_of c0 files) eqn:E; [done|].
    exfalso. apply Hc0, Hmem. by rewrite E. }
  assert (Hnd' : NoDup dn).
  { rewrite Hcams in Hnd. by apply NoDup_app in Hnd as (? & _ & _). }
  assert (Hwin : forall c', (count_of c' (rounds (fun c => files_of c files) b cams r
                    ++ flat_map (batch (fun c => files_of c files) b r) dn ++ q)
                             < count_of c' files)%nat ->
            (r * b <= count_of c' (rounds (fun c => files_of c files) b cams r
                    ++ flat_map (batch (fun c => files_of c files) b r) dn ++ q)
             <= r * b + b)%nat).
  { intros c'. rewrite !count_of_app.
    rewrite (count_rounds files b cams Hnd Hcover).
    rewrite (count_flat_batch files b r c' dn Hnd').
    assert (Hq' : (count_of c' q <= b)%nat
                  /\ (c' ∈ dn -> count_of c' q = 0%nat)).
    { destruct Hq as [-> | (c0 & todo' & -> & Hpre)];
        [split; [unfold count_of; simpl; lia | done]|].
      split.
      - etrans; [apply count_of_le_length|].
        etrans; [by apply prefix_length|].
        rewrite length_batch. lia.
      - intros Hin. unfold count_of. rewrite (files_of_sub c' c0).
        + rewrite decide_False; [done|]. intros ->.
          rewrite Hcams in Hnd. apply NoDup_app in Hnd as (_ & Hdisj & _).
          apply (Hdisj c0 Hin). left.
        + destruct Hpre as [k Hk].
          pose proof (batch_Forall files b r c0) as HF.
          rewrite Hk in HF. by apply Forall_app in HF as [? _]. }
    destruct Hq' as [Hq1 Hq2].
    destruct (decide (c' ∈ dn)) as [Hin|Hnin]; [rewrite (Hq2 Hin)|]; lia. }
  exists r. split; [by apply Hwin | exact Hwin].
Qed.

(** C4. At every prefix of the schedule, two camera folders that both
    still have files not yet dispatched differ by at most the batch size
    in the number of files dispatched so far. *)
Theorem round_robin_fairness files b start p c1 c2 :
  p `prefix_of` _organize_files_round_robin files b start ->
  (count_of c1 p < count_of c1 files)%nat ->
  (count_of c2 p < count_of c2 files)%nat ->
  (count_of c1 p <= count_of c2 p + b)%nat.
Proof.
  intros Hp H1 H2.
  destruct (count_in_window files b start p c1 Hp H1) as (r & Hr1 & Hall).
  pose proof (Hall c2 H2). lia.
Qed.


(** ** The schedule as a rearrangement of the camera files *)

Lemma flat_map_app_perm {A B} (f g : A -> list B) (l : list A) :
  flat_map (fun x => f x ++ g x) l ≡ₚ flat_map f l ++ flat_map g l.
Proof.
  induction l as [|x l IH]; simpl; [done|].
  rewrite IH. rewrite <- !app_assoc. apply Permutation_app_head.
  rewrite !app_assoc. apply Permutation_app_tail. apply Permutation_app_comm.
Qed.

Lemma flat_map_nil {A B} (f : A -> list B) (l : list A) :
  (forall x, f x = []) -> flat_map f l = [].
Proof. intros Hf. induction l as [|x l IH]; simpl; [done|]. by rewrite Hf, IH. Qed.

Lemma rounds_perm queue b cams n :
  rounds queue b cams n ≡ₚ flat_map (fun c => take (n * b) (queue c)) cams.
Proof.
  induction n as [|n IH].
  - unfold rounds; simpl. by rewrite flat_map_nil.
  - rewrite rounds_S, IH. unfold round. rewrite <- flat_map_app_perm.
    erewrite flat_map_ext; [done|]. intros c. unfold batch. simpl.
    rewrite take_take_drop. f_equal. lia.
Qed.

Lemma find_none_existsb {A} (p : A -> bool) (l : list A) :
  List.find p l = None <-> existsb p l = false.
Proof.
  induction l as [|x l IH]; simpl; [done|].
  destruct (p x); simpl; [split; discriminate | exact IH].
Qed.

Lemma has_camera_spec f :
  has_camera_component f = true <-> exists c, camera_folder f = Some c.
Proof.
  unfold has_camera_component, camera_folder.
  pose proof (find_none_existsb (PyStr.startswith camera_prefix) (PyStr.split "/" f)) as H.
  destruct (List.find _ _) as [c|].
  - split; [by exists c|]. intros _.
    destruct (existsb _ _); [done|]. by destruct H as [_ H]; specialize (H eq_refl).
  - rewrite (proj1 H eq_refl). split; [done | by intros [c ?]].
Qed.

Lemma queues_perm files cams :
  NoDup cams ->
  (forall c, files_of c files <> [] -> c ∈ cams) ->
  flat_map (fun c => files_of c files) cams
  ≡ₚ filter (fun f => has_camera_component f = true) files.
Proof.
  intros Hnd. induction files as [|f files IH]; intros Hcov.
  - by rewrite flat_map_nil.
  - destruct (camera_folder f) as [c0|] eqn:Hf.
    + rewrite filter_cons_True by (apply has_camera_spec; by exists c0).
      assert (Hc0 : c0 ∈ cams).
      { apply Hcov. unfold files_of. by rewrite filter_cons_True. }
      rewrite <- IH.
      2:{ intros c Hc. apply Hcov. unfold files_of in *.
          rewrite filter_cons. case_decide; [done | exact Hc]. }
      destruct (list_elem_of_split _ _ Hc0) as (l1 & l2 & ->).
      apply NoDup_app in Hnd as (_ & Hl1 & Hl2).
      apply NoDup_cons in Hl2 as [Hl2 _].
      rewrite !flat_map_app. simpl.
      rewrite (flat_map_ext_elem _ (fun c => files_of c files) l1).
      2:{ intros c Hc. unfold files_of. rewrite filter_cons_False; [done|].
          intros H'. rewrite Hf in H'. injection H' as <-.
          apply (Hl1 c0 Hc). left. }
      rewrite (flat_map_ext_elem _ (fun c => files_of c files) l2).
      2:{ intros c Hc. unfold files_of. rewrite filter_cons_False; [done|].
          intros H'. rewrite Hf in H'. by injection H' as <-. }
      unfold files_of at 2. rewrite filter_cons_True by done.
      symmetry. apply Permutation_middle.
    + rewrite filter_cons_False.
      2:{ rewrite has_camera_spec. intros [c Hc]. congruence. }
      rewrite <- IH.
      2:{ intros c Hc. apply Hcov. unfold files_of in *.
          rewrite filter_cons_False by congruence. exact Hc. }
      erewrite flat_map_ext_elem; [done|]. intros c _. unfold files_of.
      rewrite filter_cons_False by congruence. done.
Qed.

Lemma organize_subset files b start f :
  f ∈ _organize_files_round_robin files b start ->
  f ∈ files /\ has_camera_component f = true.
Proof.
  destruct (organize_closed files b start) as (_ & _ & n & _ & -> & _).
  rewrite rounds_perm. intros Hf%list_elem_of_In.
  apply in_flat_map in Hf as (c & _ & Hf%list_elem_of_In).
  apply subseteq_take in Hf.
  apply list_elem_of_filter in Hf as [Hc Hf]. split; [done|].
  apply has_camera_spec. by exists c.
Qed.

(** C9, as amended. Every scheduled file is an input file with a path
    component that begins with "192.168.1."; files without one are
    left out; and as long as no camera folder holds more files than the
    10000 iterations of the loop can take ([max_iterations] batches), the
    schedule is a rearrangement of exactly the input files that have such
    a component. *)
Theorem organize_keeps_camera_files files b start :
  (forall f, f ∈ _organize_files_round_robin files b start ->
             f ∈ files /\ has_camera_component f = true)
  /\ ((forall c, (count_of c files <= max_iterations * b)%nat) ->
      _organize_files_round_robin files b start
      ≡ₚ filter (fun f => has_camera_component f = true) files).
Proof.
  split; [intros f; apply organize_subset|].
  intros Hcap.
  destruct (organize_closed files b start)
    as (Hnd & Hmem & n & Hn & -> & Hdrained & _).
  rewrite rounds_perm, <- (queues_perm files _ Hnd).
  2:{ intros c. apply Hmem. }
  erewrite flat_map_ext; [done|]. intros c. simpl.
  apply take_ge.
  destruct (decide (n < max_iterations)%nat) as [Hlt|Hge].
  - by apply drop_nil_inv, Hdrained.
  - assert (n = max_iterations) as -> by lia. apply Hcap.
Qed.


(** ** Continuation after a camera *)

Lemma camera_name_nonempty files c :
  c ∈ sorted_cameras (group_files files) -> c <> "".
Proof.
  rewrite sorted_cameras_elem, group_dom. intros Hne ->.
  destruct (files_of "" files) as [|f q] eqn:E; [done|].
  pose proof (files_of_Forall "" files) as HF. rewrite E in HF.
  apply Forall_cons in HF as [Hf _]. unfold camera_folder in Hf.
  apply find_some in Hf as [_ Hf]. vm_compute in Hf. discriminate.
Qed.

Lemma next_index_ne i n : (i < n)%nat -> (2 <= n)%nat -> ((i + 1) mod n)%nat <> i.
Proof.
  intros Hi Hn. destruct (decide (i + 1 < n)%nat) as [Hlt|Hge].
  - rewrite Nat.mod_small by done. lia.
  - assert (i + 1 = n)%nat as -> by lia. rewrite Nat.Div0.mod_same. lia.
Qed.

(** C3, as amended. When the continue-after folder [F] is one of the
    grouped folders (and the batch size is positive), the schedule begins
    with a file of the folder that follows [F] in sorted folder order,
    wrapping past the end; that folder differs from [F] as soon as there
    are two folders. *)
Theorem continues_after_camera files b F :
  (1 <= b)%nat ->
  F ∈ sorted_cameras (group_files files) ->
  let cameras := sorted_cameras (group_files files) in
  exists i f rest,
    cameras !! i = Some F
    /\ _organize_files_round_robin files b (Some F) = f :: rest
    /\ camera_folder f = cameras !! ((i + 1) mod length cameras)%nat
    /\ ((2 <= length cameras)%nat -> camera_folder f <> Some F).
Proof.
  intros Hb HF cameras.
  pose proof (camera_name_nonempty files F HF) as HFne.
  destruct (index_elem F cameras HF) as [i Hi].
  pose proof (index_Some _ _ _ Hi) as Hlook.
  pose proof (lookup_lt_Some _ _ _ Hlook) as Hlt.
  set (next := ((i + 1) mod length cameras)%nat).
  assert (Hnext : (next < length cameras)%nat).
  { apply Nat.mod_upper_bound. lia. }
  destruct (lookup_lt_is_Some_2 cameras next Hnext) as [c0 Hc0].
  destruct (organize_closed files b (Some F))
    as (Hnd & Hmem & n & _ & Hres & _ & Hpos).
  assert (Hrot : rotate (Some F) cameras
                 = c0 :: drop (S next) cameras ++ take next cameras).
  { unfold rotate. destruct F as [|a F']; [done|].
    fold cameras in Hi. rewrite Hi. fold next.
    by rewrite (drop_S _ _ _ Hc0). }
  fold cameras in Hres, Hmem, Hnd, Hpos. rewrite Hrot in Hres, Hmem, Hpos.
  destruct n as [|n]; [exfalso; specialize (Hpos ltac:(done)); lia|].
  assert (Hq : files_of c0 files <> []) by (apply Hmem; left).
  destruct (files_of c0 files) as [|f q] eqn:E; [done|].
  destruct b as [|b']; [lia|].
  exists i, f. eexists. split; [exact Hlook|]. split; [|split].
  - rewrite Hres. unfold rounds. simpl. unfold batch at 1. simpl.
    rewrite E. simpl. reflexivity.
  - change (camera_folder f = cameras !! next). rewrite Hc0.
    pose proof (files_of_Forall c0 files) as HFa. rewrite E in HFa.
    by apply Forall_cons in HFa as [? _].
  - intros H2 Hf.
    pose proof (files_of_Forall c0 files) as HFa. rewrite E in HFa.
    apply Forall_cons in HFa as [Hf0 _]. rewrite Hf0 in Hf. injection Hf as ->.
    pose proof (sorted_cameras_NoDup (group_files files)) as Hnd0.
    fold cameras in Hnd0.
    pose proof (NoDup_lookup _ _ _ _ Hnd0 Hc0 Hlook) as Heq.
    by apply (next_index_ne i (length cameras)).
Qed.


Lemma continues_after_camera_witness :
  let cameras := sorted_cameras (group_files three_cameras) in
  exists i f rest,
    cameras !! i = Some "192.168.1.113"
    /\ _organize_files_round_robin three_cameras 3 (Some "192.168.1.113")
       = f :: rest
    /\ camera_folder f = cameras !! ((i + 1) mod length cameras)%nat
    /\ ((2 <= length cameras)%nat -> camera_folder f <> Some "192.168.1.113").
Proof.
  apply (continues_after_camera three_cameras 3 "192.168.1.113").
  - lia.
  - apply list_elem_of_In. vm_compute. auto.
Defined.

(** C3 as stated fails with a single folder: the folder after [F],
    wrapping, is [F], and the schedule begins with it. *)
Lemma single_folder_begins_with_itself :
  one_camera <> []
  /\ "192.168.1.112" ∈ sorted_cameras (group_files one_camera)
  /\ exists f rest,
       _organize_files_round_robin one_camera 3 (Some "192.168.1.112")
       = f :: rest
       /\ camera_folder f = Some "192.168.1.112".
Proof.
  split; [discriminate|]. split.
  - apply list_elem_of_In. vm_compute. auto.
  - eexists _, _. split; vm_compute; reflexivity.
Qed.

Lemma round_robin_fairness_witness :
  let p := [ "/nas/192.168.1.111/2024-01-01/a.dav";
             "/nas/192.168.1.111/2024-01-01/b.dav" ] in
  (count_of "192.168.1.111" p <= count_of "192.168.1.112" p + 3)%nat.
Proof.
  apply (round_robin_fairness three_cameras 3 None).
  - exists [ "/nas/192.168.1.111/2024-01-01/c.dav";
             "/nas/192.168.1.112/2024-01-01/a.dav";
             "/nas/192.168.1.113/2024-01-01/a.dav";
             "/nas/192.168.1.111/2024-01-01/d.dav" ].
    vm_compute. reflexivity.
  - vm_compute. lia.
  - vm_compute. lia.
Defined.

Lemma organize_keeps_camera_files_witness :
  _organize_files_round_robin three_cameras 3 None
  ≡ₚ filter (fun f => has_camera_component f = true) three_cameras.
Proof.
  apply (organize_keeps_camera_files three_cameras 3 None).
  intros c. etrans; [apply count_of_le_length|].
  assert (Hlen : length three_cameras = 7%nat) by reflexivity.
  unfold max_iterations. lia.
Defined.

Lemma count_of_replicate c f n :
  camera_folder f = Some c -> count_of c (replicate n f) = n.
Proof.
  intros Hf. unfold count_of. rewrite files_of_all; [apply length_replicate|].
  apply Forall_replicate. exact Hf.
Qed.

(** The schedule takes at most [max_iterations] batches from a camera. *)
Lemma count_organize files b start c :
  (count_of c (_organize_files_round_robin files b start)
   <= max_iterations * b)%nat.
Proof.
  destruct (organize_closed files b start) as (Hnd & Hmem & n & Hn & -> & _).
  rewrite count_rounds; [nia | exact Hnd |].
  intros c0 Hc0. destruct (files_of c0 files) eqn:E; [done|].
  exfalso. apply Hc0, Hmem. by rewrite E.
Qed.

(** C9 as stated fails beyond the iteration cap: of 30001 pending files
    of one camera folder, all of which have the camera component, at
    most 30000 are scheduled at batch size 3. *)
Lemma cap_drops_files :
  Forall (fun f => has_camera_component f = true) crowded_camera
  /\ length crowded_camera = Z.to_nat 30001
  /\ (length (_organize_files_round_robin crowded_camera 3 None)
      <= Z.to_nat 30000)%nat
  /\ ~ (_organize_files_round_robin crowded_camera 3 None
        ≡ₚ filter (fun f => has_camera_component f = true) crowded_camera).
Proof.
  assert (Hcam : camera_folder "/nas/192.168.1.112/2024-01-01/a.dav"
                 = Some "192.168.1.112") by (vm_compute; reflexivity).
  assert (Hall : Forall (fun f => has_camera_component f = true) crowded_camera).
  { apply Forall_replicate. vm_compute. reflexivity. }
  assert (Hlen : (length (_organize_files_round_robin crowded_camera 3 None)
                  <= Z.to_nat 30000)%nat).
  { pose proof (count_organize crowded_camera 3 None "192.168.1.112") as Hc.
    unfold count_of in Hc. rewrite files_of_all in Hc.
    - unfold max_iterations in Hc. lia.
    - apply Forall_forall. intros f Hf.
      apply organize_subset in Hf as [Hf _].
      apply elem_of_replicate in Hf as [-> _]. exact Hcam. }
  split; [exact Hall|]. split; [apply length_replicate|]. split; [exact Hlen|].
  intros Hperm. apply Permutation_length in Hperm.
  assert (Hfil : filter (fun f => has_camera_component f = true) crowded_camera
                 = crowded_camera).
  { clear -Hall. induction Hall as [|f l Hf _ IH]; [done|].
    rewrite filter_cons_True by exact Hf. by rewrite IH. }
  rewrite Hfil in Hperm. unfold crowded_camera in Hperm at 2.
  rewrite length_replicate in Hperm. lia.
Qed.

End RoundRobinProperties.

(* ===================================================================== *)
(** * Properties of the encoder command *)
(* ===================================================================== *)

Section CommandProperties.
Import Tiers Command Spec.

(** X1. [_get_tier_name] never answers "aggressive" or "maximum": their crf
    values are those of "conservative" and "balanced", which come first. *)
Theorem tier_name_is_never_aggressive (settings : tier) :
  _get_tier_name settings
  ∈ ["conservative"; "conservative-42"; "balanced"; "ultrafast_mode"; "custom"].
Proof.
  unfold _get_tier_name. simpl.
  repeat (match goal with
          | |- context [if ?b then _ else _] => destruct b
          end);
    repeat (first [by left | right]).
Qed.

Lemma apply_multiplier_bands (pc : Z) (t : tier) :
  t = t_conservative \/ t = t_balanced ->
  exists mr bs,
    apply_multiplier (multiplier pc) t = Some (set_vbv mr bs t).
Proof.
  intros Ht.
  destruct (multiplier_cases pc) as [[_ ->] | [[_ ->] | [[_ ->] | [_ ->]]]];
    destruct Ht as [-> | ->]; eexists _, _; vm_compute; reflexivity.
Qed.

(** X2. Whatever the probe reports, the command [run_ffmpeg] builds encodes
    with crf 35 or 38 under the preset "faster" or "veryfast": the entry
    "conservative", "balanced" or "aggressive" with scaled rate bounds.
    The ultrafast branch, with its filter and tune arguments, the entry
    "conservative-42" and the two overrides for sources that are already
    well compressed are never used, and the builder does not raise. *)
Theorem encoder_settings_for_every_probe (input_f output_f : string)
  (info : video_info) :
  exists settings name base,
    build_ffmpeg_command_with_vbv input_f output_f (Some info) false
    = Some (command settings input_f output_f, settings)
    /\ run_ffmpeg_args input_f output_f (Some info)
       = Some (command settings input_f output_f)
    /\ name ∈ ["conservative"; "balanced"; "aggressive"]
    /\ lookup name compression_tiers = Some base
    /\ adjust_vbv_for_resolution base info = Some settings
    /\ is_ultrafast settings = false
    /\ ((crf settings = 35 /\ preset settings = "faster"
         /\ _get_tier_name settings = "conservative")
        \/ (crf settings = 38 /\ preset settings = "veryfast"
            /\ _get_tier_name settings = "balanced")).
Proof.
  assert (H : exists name base,
             determine_compression_tier (Some info) (F64.lit 7 10) false
             = Entry name
             /\ name ∈ ["conservative"; "balanced"; "aggressive"]
             /\ lookup name compression_tiers = Some base
             /\ (base = t_conservative \/ base = t_balanced)).
  { unfold determine_compression_tier. rewrite andb_false_l.
    destruct (F64.gtb (current_bitrate info) (F64.of_Z 5000)).
    { exists "aggressive", t_aggressive. repeat split; [|by left].
      right; right; left. }
    destruct (F64.gtb (current_bitrate info) (F64.of_Z 2500)).
    { exists "balanced", t_balanced. repeat split; [|by right].
      right; left. }
    destruct (F64.gtb (current_bitrate info) (F64.of_Z 1500)).
    { exists "balanced", t_balanced. repeat split; [|by right].
      right; left. }
    exists "conservative", t_conservative. repeat split; [|by left]. left. }
  destruct H as (name & base & Hd & Hname & Hl & Hbase).
  destruct (apply_multiplier_bands (pixel_count info) base Hbase)
    as (mr & bs & Hm).
  exists (set_vbv mr bs base), name, base.
  assert (Hb : build_settings (Some info) false = Some (set_vbv mr bs base)).
  { unfold build_settings. rewrite Hd. unfold deref. rewrite Hl. exact Hm. }
  unfold run_ffmpeg_args, build_ffmpeg_command_with_vbv. rewrite Hb.
  split; [done|]. split; [done|]. split; [done|]. split; [done|].
  split; [exact Hm|].
  destruct Hbase as [-> | ->]; (split; [reflexivity|]);
    [left | right]; repeat split; reflexivity.
Qed.

End CommandProperties.

(* ===================================================================== *)
(** * The cadence of full scans *)
(* ===================================================================== *)

Section ScanCadence.
Import Scan Links.

Lemma strategies_lookup (inputs : list (F64.float * F64.float * bool)) :
  forall st k,
    (k < length inputs)%nat ->
    (scan_counter st + Z.of_nat k) mod 50 = 0 ->
    strategies st inputs !! k = Some FullScan.
Proof.
  induction inputs as [|i inputs IH]; intros st k Hk Hmod; simpl in Hk; [lia|].
  cbn [strategies]. cbv zeta. unfold cycle. destruct k as [|k]; simpl.
  - f_equal. unfold scan_strategy, should_full_scan, force_full.
    rewrite Z.add_0_r in Hmod. apply Z.eqb_eq in Hmod. rewrite Hmod.
    by rewrite orb_true_r.
  - apply IH; [lia|]. simpl. rewrite <- Hmod. f_equal. lia.
Qed.

Lemma strategies_take (inputs : list (F64.float * F64.float * bool)) :
  forall st n, take n (strategies st inputs) = strategies st (take n inputs).
Proof.
  induction inputs as [|i inputs IH]; intros st n; [by destruct n|].
  destruct n as [|n]; [done|]. cbn [strategies take]. cbv zeta.
  by rewrite IH.
Qed.

Lemma strategies_drop (inputs : list (F64.float * F64.float * bool)) :
  forall st n,
    drop n (strategies st inputs)
    = strategies (cycles st (take n inputs)) (drop n inputs).
Proof.
  induction inputs as [|i inputs IH]; intros st n; [by destruct n|].
  destruct n as [|n]; [done|]. cbn [strategies take drop]. cbv zeta.
  rewrite IH. done.
Qed.

(** X3. Among any fifty consecutive cycles one is a full scan, whatever the
    clock shows. *)
Theorem full_scan_every_fifty_cycles (st : scan_state)
  (inputs : list (F64.float * F64.float * bool)) (i : nat) :
  (i + 50 <= length inputs)%nat ->
  FullScan ∈ take 50 (drop i (strategies st inputs)).
Proof.
  intros Hlen. rewrite strategies_drop, strategies_take.
  set (st' := cycles st (take i inputs)).
  set (k := Z.to_nat ((- scan_counter st') mod 50)).
  assert (Hk : (k < 50)%nat).
  { unfold k. pose proof (Z.mod_pos_bound (- scan_counter st') 50). lia. }
  apply (list_elem_of_lookup_2 _ k). apply strategies_lookup.
  - rewrite length_take, length_drop. lia.
  - unfold k. rewrite Z2Nat.id by (apply Z.mod_pos_bound; lia).
    rewrite Zplus_mod_idemp_r. replace (_ + _) with 0 by lia. done.
Qed.

Lemma full_scan_every_fifty_cycles_witness :
  FullScan
  ∈ take 50 (drop 0 (strategies initial
                       (replicate 50 (F64.of_Z 1, F64.of_Z 1, false)))).
Proof.
  apply (full_scan_every_fifty_cycles initial
           (replicate 50 (F64.of_Z 1, F64.of_Z 1, false)) 0).
  rewrite length_replicate. lia.
Defined.

End ScanCadence.

(* ===================================================================== *)
(** * The calls of the supervisor *)
(* ===================================================================== *)

Section SupervisorCalls.
Import Supervisor Links Spec.

Lemma read_loop_calls (duration : F64.float) (events : list event) :
  forall st,
    match read_loop duration st events with
    | StreamOpen st' => calls (w st') = calls (w st)
    | Raised o st' =>
        match o with
        | Crashed => calls (w st') = calls (w st)
        | StalledKilled _ | UserCancelled =>
            calls (w st') = calls (w st) ++ [Kill]
        | Completed | Failed _ => False
        end
    end.
Proof.
  induction events as [|e rest IH]; intros st; cbn [read_loop]; [done|].
  destruct e as [stop ct text | | | rc]; simpl.
  - destruct stop; [done|].
    destruct (F64.gtb _ stuck_timeout); [done|].
    destruct (parse_line duration text);
      [exact (IH (mk_loop_state ct (w st))) | apply IH | done].
  - exact (IH (mk_loop_state (last_progress_time st) (throttle_suspend (w st)))).
  - exact (IH (mk_loop_state (last_progress_time st) (throttle_resume (w st)))).
  - exact (IH (mk_loop_state (last_progress_time st) (encoder_exit rc (w st)))).
Qed.

(** X4. The calls of a run, by the way it ends: a kill and nothing else
    when the encoder is killed; the stop of the throttle and the join of
    its thread, without a kill, when the encoder has exited; nothing at
    all when a progress line makes the loop raise. *)
Theorem calls_by_outcome (duration start_time : F64.float)
  (events : list event) (returncode : Z) (thread_alive : bool)
  (o : outcome) (w1 : world) :
  run_ffmpeg duration start_time events returncode thread_alive = Some (o, w1) ->
  calls w1
  = match o with
    | StalledKilled _ | UserCancelled => [Kill]
    | Completed | Failed _ =>
        SetThrottleStop :: (if thread_alive then [JoinThrottle] else [])
    | Crashed => []
    end.
Proof.
  unfold run_ffmpeg.
  pose proof (read_loop_calls duration events
                (mk_loop_state start_time (mk_world Running []))) as Hloop.
  destruct (read_loop _ _ events) as [st | o' st]; simpl in Hloop.
  - assert (Hc : calls (cleanup thread_alive (wait returncode (w st)))
                 = SetThrottleStop :: (if thread_alive then [JoinThrottle] else [])).
    { destruct (cleanup_spec thread_alive (wait returncode (w st))) as [Hc _].
      cbv zeta in Hc. rewrite Hc, (wait_dead returncode (w st)). simpl.
      unfold wait, encoder_exit. simpl. by rewrite Hloop. }
    destruct (proc (w st)); try discriminate;
      cbv zeta; destruct (_ =? 0); intros [= <- <-]; exact Hc.
  - intros [= <- <-]. destruct o'; done.
Qed.
Lemma calls_by_outcome_witness :
  calls (mk_world Killed [Kill]) = [Kill].
Proof.
  apply (calls_by_outcome (F64.of_Z 120) (F64.of_Z 0)
           [Line false (F64.of_Z 61) "frame=1"] 0 true
           (StalledKilled (F64.of_Z 61)) (mk_world Killed [Kill])).
  vm_compute. reflexivity.
Defined.

End SupervisorCalls.

(* ===================================================================== *)
(** * The throttle worker and the encoder together *)
(* ===================================================================== *)

Section ThrottleAndEncoder.
Import Throttle Supervisor Links Spec.

Lemma throttle_events_keep_pace (limit duration : F64.float)
  (samples : list sample) :
  forall th lp cs,
    read_loop duration
      (mk_loop_state lp (mk_world (status_of (state th)) cs))
      (throttle_events (fst (run limit th samples)))
    = StreamOpen
        (mk_loop_state lp
           (mk_world (status_of (state (snd (run limit th samples)))) cs)).
Proof.
  induction samples as [|s samples IH]; intros th lp cs; [done|].
  cbn [run].
  destruct (step_cases limit th s) as [Hs | (t & st' & Hs & Hne & Ht & _)];
    cbv zeta in Hs; rewrite Hs.
  - specialize (IH (mk_throttle (Some (smooth (ema th) (sys_pct s)))
                      (state th) (last_switch th)) lp cs).
    destruct (run limit _ samples) as [ts final]. exact IH.
  - specialize (IH (mk_throttle (Some (smooth (ema th) (sys_pct s)))
                      st' (now s)) lp cs).
    destruct (run limit _ samples) as [ts final]. simpl in *.
    rewrite Ht. simpl.
    destruct (state th), st'; try done; simpl; exact IH.
Qed.

(** X5. While the encoder is alive and writes nothing, the worker's idea of
    the run state and the encoder agree after every sequence of samples:
    the encoder is suspended exactly when the worker is in state "off".
    If the worker leaves its loop there, the encoder stays suspended and
    the supervisor does not return; otherwise the encoder runs to its
    exit and the supervisor returns through the cleanup. *)
Theorem worker_state_is_encoder_state (cpu_limit_percent : Z)
  (start duration start_time : F64.float) (samples : list sample)
  (returncode : Z) (thread_alive : bool) :
  let r := worker cpu_limit_percent start samples in
  read_loop duration (started start_time) (throttle_events (fst r))
  = StreamOpen
      (mk_loop_state start_time (mk_world (status_of (state (snd r))) []))
  /\ run_ffmpeg duration start_time (throttle_events (fst r))
       returncode thread_alive
     = match state (snd r) with
       | Off => None
       | On =>
           Some (if returncode =? 0 then Completed else Failed returncode,
                 mk_world (Exited returncode)
                   (SetThrottleStop
                    :: if thread_alive then [JoinThrottle] else []))
       end.
Proof.
  cbv zeta. unfold worker.
  pose proof (throttle_events_keep_pace (F64.of_Z cpu_limit_percent) duration
                samples (mk_throttle None On start) start_time []) as H.
  split; [exact H|]. unfold run_ffmpeg.
  change (mk_loop_state start_time (mk_world Running []))
    with (mk_loop_state start_time
            (mk_world (status_of (state (mk_throttle None On start))) [])).
  rewrite H.
  destruct (state (snd (run (F64.of_Z cpu_limit_percent)
                          (mk_throttle None On start) samples)));
    [|reflexivity].
  simpl. destruct thread_alive, (returncode =? 0); reflexivity.
Qed.

End ThrottleAndEncoder.

(* ===================================================================== *)
(** * Order and reach of the round-robin schedule *)
(* ===================================================================== *)

Section ScheduleProperties.
Import RoundRobin Spec.

Lemma files_of_flat_batch files b r c l :
  NoDup l ->
  files_of c (flat_map (batch (fun c => files_of c files) b r) l)
  = if decide (c ∈ l) then batch (fun c => files_of c files) b r c else [].
Proof.
  induction 1 as [|c' l Hc' Hnd IH]; cbn [flat_map].
  - case_decide as H; [by apply elem_of_nil in H | done].
  - rewrite files_of_app, IH, (files_of_sub c c') by apply batch_Forall.
    destruct (decide (c = c')) as [->|Hne].
    + rewrite (decide_False (P := c' ∈ l)) by done.
      rewrite (decide_True (P := c' ∈ c' :: l)) by left. by rewrite app_nil_r.
    + destruct (decide (c ∈ l)) as [Hin|Hnin].
      * rewrite decide_True by (by right). done.
      * rewrite decide_False; [done|]. by intros [?|?]%elem_of_cons.
Qed.

Lemma files_of_rounds files b cams n c :
  NoDup cams ->
  (forall c, c ∉ cams -> files_of c files = []) ->
  files_of c (rounds (fun c => files_of c files) b cams n)
  = take (n * b) (files_of c files).
Proof.
  intros Hnd Hcover. induction n as [|n IH].
  - unfold rounds. simpl. by rewrite take_0.
  - rewrite rounds_S, files_of_app, IH. unfold round.
    rewrite files_of_flat_batch by done.
    destruct (decide (c ∈ cams)) as [Hin|Hnin].
    + unfold batch. rewrite take_take_drop. f_equal. lia.
    + rewrite (Hcover c Hnin). by rewrite !take_nil.
Qed.

(** X6. The files of one camera folder are scheduled in the order of the
    input: what the schedule holds of a folder is an initial part of the
    folder's files, the same number of batches for every folder. *)
Theorem schedule_keeps_camera_order files b start :
  exists n, (n <= max_iterations)%nat
    /\ forall c,
         files_of c (_organize_files_round_robin files b start)
         = take (n * b) (files_of c files).
Proof.
  destruct (organize_closed files b start) as (Hnd & Hmem & n & Hn & -> & _).
  exists n. split; [done|]. intros c. apply files_of_rounds; [done|].
  intros c0 Hc0. destruct (files_of c0 files) eqn:E; [done|].
  exfalso. apply Hc0, Hmem. by rewrite E.
Qed.

Lemma index_None x l : x ∉ l -> index x l = None.
Proof.
  induction l as [|y l IH]; intros Hx; simpl; [done|].
  apply not_elem_of_cons in Hx as [Hne Hx].
  destruct (String.eqb_spec y x) as [->|_]; [done|]. by rewrite IH.
Qed.

(** X7. A continue-after folder that is not among the grouped folders is
    ignored. *)
Theorem unknown_start_camera_is_ignored files b F :
  F ∉ sorted_cameras (group_files files) ->
  _organize_files_round_robin files b (Some F)
  = _organize_files_round_robin files b None.
Proof.
  intros HF. unfold _organize_files_round_robin, rotate.
  destruct F as [|a F']; [done|]. by rewrite index_None.
Qed.

(** X8. With a batch size of zero nothing is scheduled. *)
Theorem zero_batch_schedules_nothing files start :
  _organize_files_round_robin files 0 start = [].
Proof.
  destruct (_organize_files_round_robin files 0 start) as [|f rest] eqn:E; [done|].
  exfalso.
  assert (Hf : f ∈ _organize_files_round_robin files 0 start) by (rewrite E; left).
  apply organize_subset in Hf as [_ Hc]. apply has_camera_spec in Hc as [c Hc].
  pose proof (count_organize files 0 start c) as Hcount.
  rewrite E in Hcount. unfold count_of, files_of in Hcount.
  rewrite filter_cons_True in Hcount by done. simpl in Hcount. lia.
Qed.

Lemma flat_map_submseteq {A B} (f g : A -> list B) (l : list A) :
  (forall x, f x ⊆+ g x) -> flat_map f l ⊆+ flat_map g l.
Proof.
  intros H. induction l as [|x l IH]; simpl; [done|]. by apply submseteq_app.
Qed.

Lemma submseteq_NoDup_l {A} (l k : list A) : l ⊆+ k -> NoDup k -> NoDup l.
Proof.
  intros (l' & Hp & Hs)%submseteq_sublist_r Hk.
  rewrite Hp. by eapply sublist_NoDup.
Qed.

(** X9. The schedule holds no file more often than the input does; without
    duplicates in the input there are none in the schedule. *)
Theorem schedule_has_no_new_duplicates files b start :
  _organize_files_round_robin files b start ⊆+ files
  /\ (NoDup files -> NoDup (_organize_files_round_robin files b start)).
Proof.
  assert (Hsub : _organize_files_round_robin files b start ⊆+ files).
  { destruct (organize_closed files b start) as (Hnd & Hmem & n & _ & -> & _).
    rewrite rounds_perm.
    trans (flat_map (fun c => files_of c files)
             (rotate start (sorted_cameras (group_files files)))).
    - apply flat_map_submseteq. intros c. apply submseteq_take.
    - rewrite (queues_perm files _ Hnd) by (intros c; apply Hmem).
      apply sublist_submseteq, sublist_filter. }
  split; [exact Hsub|]. intros Hnd. by eapply submseteq_NoDup_l.
Qed.

Lemma rounds_head queue b cams n :
  rounds queue b cams (S n)
  = round queue b cams 0 ++ flat_map (round queue b cams) (seq 1 n).
Proof. reflexivity. Qed.

Lemma length_flat_batch queue b r l :
  (length (flat_map (batch queue b r) l) <= b * length l)%nat.
Proof.
  induction l as [|c l IH]; simpl; [lia|].
  rewrite length_app. unfold batch at 1. rewrite length_take. lia.
Qed.

(** X10. No camera folder waits longer than a round: among the first
    [3 * number of folders] scheduled files, which is what the
    orchestrator handles before it scans again, every folder has its
    first three pending files, or all of them when it has fewer. *)
Theorem every_camera_is_served_in_a_round files start c :
  let schedule := _organize_files_round_robin files 3 start in
  let round_size := Orchestrator.round_size (Ingest.camera_order files) in
  (3 `min` count_of c files <= count_of c (take round_size schedule))%nat.
Proof.
  cbv zeta.
  destruct (organize_closed files 3 start) as (Hnd & Hmem & n & _ & Hres & _ & Hpos).
  set (cams := rotate start (sorted_cameras (group_files files))) in *.
  assert (Hcover : forall c, c ∉ cams -> files_of c files = []).
  { intros c0 Hc0. destruct (files_of c0 files) eqn:E; [done|].
    exfalso. apply Hc0, Hmem. by rewrite E. }
  destruct (decide (c ∈ cams)) as [Hc | Hc].
  2:{ unfold count_of at 1. rewrite (Hcover c Hc). simpl. lia. }
  assert (Hlen : length cams = length (Ingest.camera_order files)).
  { unfold cams, Ingest.camera_order. by rewrite rotate_perm. }
  assert (Hne : cams <> []) by (intros E; rewrite E in Hc; by apply elem_of_nil in Hc).
  specialize (Hpos Hne). destruct n as [|n]; [lia|].
  rewrite Hres, rounds_head.
  assert (Hrs : Orchestrator.round_size (Ingest.camera_order files)
                = (3 * length cams)%nat).
  { unfold Orchestrator.round_size. rewrite Hlen.
    destruct (Ingest.camera_order files); [|done].
    destruct cams; [done | discriminate]. }
  rewrite Hrs, take_app.
  rewrite take_ge by (unfold round; apply length_flat_batch).
  rewrite count_of_app. unfold round.
  rewrite (count_flat_batch files 3 0 c cams Hnd), decide_True by done. lia.
Qed.

Lemma organize_head files b start c0 cams' :
  (1 <= b)%nat ->
  rotate start (sorted_cameras (group_files files)) = c0 :: cams' ->
  exists f rest,
    _organize_files_round_robin files b start = f :: rest
    /\ camera_folder f = Some c0.
Proof.
  intros Hb Hrot.
  destruct (organize_closed files b start) as (Hnd & Hmem & n & _ & Hres & _ & Hpos).
  rewrite Hrot in Hres, Hmem, Hpos.
  destruct n as [|n]; [exfalso; specialize (Hpos ltac:(done)); lia|].
  assert (Hq : files_of c0 files <> []) by (apply Hmem; left).
  destruct (files_of c0 files) as [|f q] eqn:E; [done|].
  destruct b as [|b']; [lia|].
  exists f. eexists. split.
  - rewrite Hres. unfold rounds. simpl. unfold batch at 1. simpl.
    rewrite E. simpl. reflexivity.
  - pose proof (files_of_Forall c0 files) as HFa. rewrite E in HFa.
    by apply Forall_cons in HFa as [? _].
Qed.

(** X11. Without a continue-after folder the schedule begins with a file of
    the least folder name. *)
Theorem schedule_begins_with_least_camera files b f0 c :
  (1 <= b)%nat ->
  f0 ∈ files -> camera_folder f0 = Some c ->
  exists f rest c0,
    _organize_files_round_robin files b None = f :: rest
    /\ camera_folder f = Some c0
    /\ forall c', c' ∈ sorted_cameras (group_files files) -> String.le c0 c'.
Proof.
  intros Hb Hf0 Hc.
  assert (Hin : c ∈ sorted_cameras (group_files files)).
  { rewrite sorted_cameras_elem, group_dom.
    intros E. assert (Hf : f0 ∈ files_of c files)
      by (apply list_elem_of_filter; done).
    rewrite E in Hf. by apply elem_of_nil in Hf. }
  destruct (sorted_cameras (group_files files)) as [|c0 cams'] eqn:Ecams;
    [by apply elem_of_nil in Hin|].
  destruct (organize_head files b None c0 cams' Hb) as (f & rest & Hres & Hcf).
  { by rewrite <- Ecams. }
  exists f, rest, c0. split; [done|]. split; [done|].
  pose proof (StronglySorted_merge_sort String.le
                (elements (dom (group_files files)))) as Hs.
  fold (sorted_cameras (group_files files)) in Hs. rewrite Ecams in Hs.
  apply StronglySorted_inv in Hs as [_ Hall].
  intros c' [-> | Hc']%elem_of_cons; [done|].
  rewrite Forall_forall in Hall. by apply Hall.
Qed.

Lemma unknown_start_camera_is_ignored_witness :
  _organize_files_round_robin three_cameras 3 (Some "192.168.1.200")
  = _organize_files_round_robin three_cameras 3 None.
Proof.
  apply (unknown_start_camera_is_ignored three_cameras 3 "192.168.1.200").
  apply (bool_decide_unpack _). vm_compute. exact I.
Defined.

Lemma schedule_has_no_new_duplicates_witness :
  NoDup (_organize_files_round_robin three_cameras 3 None).
Proof.
  apply (proj2 (schedule_has_no_new_duplicates three_cameras 3 None)).
  apply (bool_decide_unpack _). vm_compute. exact I.
Defined.

Lemma schedule_begins_with_least_camera_witness :
  exists f rest c0,
    _organize_files_round_robin three_cameras 3 None = f :: rest
    /\ camera_folder f = Some c0
    /\ forall c', c' ∈ sorted_cameras (group_files three_cameras) ->
                  String.le c0 c'.
Proof.
  apply (schedule_begins_with_least_camera three_cameras 3
           "/nas/192.168.1.111/2024-01-01/a.dav" "192.168.1.111").
  - lia.
  - left.
  - vm_compute. reflexivity.
Defined.

End ScheduleProperties.

(* ===================================================================== *)
(** * Properties of the scanner and its caches *)
(* ===================================================================== *)

Section IngestProperties.
Import Ingest.

Lemma elem_of_merge_sort_le (l : list string) (x : string) :
  x ∈ merge_sort String.le l <-> x ∈ l.
Proof. by rewrite merge_sort_Permutation. Qed.

Lemma sorted_strongly (l : list string) :
  StronglySorted String.le (merge_sort String.le l).
Proof. apply StronglySorted_merge_sort; apply _. Qed.

Lemma elem_of_unprocessed (v : source_view) (c : caches) (p : string) :
  p ∈ unprocessed v c
  <-> p ∈ walk v /\ (p ∉ processed_files_cache c) /\ output_exists v p = false.
Proof. unfold unprocessed. rewrite list_elem_of_filter. tauto. Qed.

Lemma check_candidates_spec (v : source_view) (processed : gset string)
  (candidates : list string) : forall (scanned : gset string) (p : string),
  p ∈ foldl (check_candidate v processed) scanned candidates
  <-> p ∈ scanned
      \/ (p ∈ candidates /\ (p ∉ processed) /\ output_exists v p = false).
Proof.
  induction candidates as [|x candidates IH]; intros scanned p; simpl.
  - split; [auto | intros [H | [H _]]; [done | by apply elem_of_nil in H]].
  - rewrite IH. unfold check_candidate.
    destruct (bool_decide_reflect (x ∈ processed)) as [Hx | Hx].
    { rewrite elem_of_cons. split; [tauto|].
      intros [H | [[-> | H] [H1 H2]]]; tauto. }
    destruct (bool_decide_reflect (x ∈ scanned)) as [Hs | Hs].
    { rewrite elem_of_cons. split; [tauto|].
      intros [H | [[-> | H] [H1 H2]]]; tauto. }
    destruct (output_exists v x) eqn:Ho.
    { rewrite elem_of_cons. split; [tauto|].
      intros [H | [[-> | H] [H1 H2]]]; [tauto | congruence | tauto]. }
    rewrite elem_of_union, elem_of_singleton, elem_of_cons. split.
    + intros [[-> | H] | H]; tauto.
    + intros [H | [[-> | H] [H1 H2]]]; tauto.
Qed.

(** X12. When the listing works, an incremental scan returns, sorted and
    without duplicates, exactly the files that are not processed and are
    either pending already or listed without an output; a pending file
    is returned whether or not its output exists by now. *)
Theorem incremental_scan_pending (v : source_view) (c : caches)
  (candidates : list string) :
  listing v = Some candidates ->
  let files := fst (_incremental_scan v c) in
  StronglySorted String.le files
  /\ NoDup files
  /\ (forall p,
        p ∈ files
        <-> (p ∉ processed_files_cache c)
            /\ (p ∈ scanned_files_cache c
                \/ (p ∈ candidates /\ output_exists v p = false))).
Proof.
  intros Hl. unfold _incremental_scan. rewrite Hl. simpl.
  split; [apply sorted_strongly|]. split.
  - rewrite merge_sort_Permutation. apply NoDup_elements.
  - intros p. rewrite elem_of_merge_sort_le, elem_of_elements, elem_of_filter.
    rewrite check_candidates_spec. tauto.
Qed.


Lemma sorted_files_unprocessed (full : bool) (v : source_view) (c : caches)
  (p : string) :
  p ∈ fst (sorted_files full v c) ->
  (p ∉ processed_files_cache c)
  /\ p ∈ scanned_files_cache (snd (sorted_files full v c)).
Proof.
  assert (Hfull : p ∈ fst (_full_directory_scan v c) ->
                  (p ∉ processed_files_cache c)
                  /\ p ∈ scanned_files_cache (snd (_full_directory_scan v c))).
  { simpl. rewrite elem_of_merge_sort_le, elem_of_list_to_set.
    intros H. split; [|exact H]. by apply elem_of_unprocessed in H as (_ & ? & _). }
  unfold sorted_files. destruct full; [exact Hfull|].
  unfold _incremental_scan. destruct (listing v) as [candidates|]; [|exact Hfull].
  simpl. rewrite elem_of_merge_sort_le, elem_of_elements, elem_of_filter. tauto.
Qed.

Lemma sorted_files_processed (full : bool) (v : source_view) (c : caches) :
  processed_files_cache (snd (sorted_files full v c)) = processed_files_cache c.
Proof.
  unfold sorted_files, _incremental_scan.
  destruct full; [reflexivity|]. destruct (listing v); reflexivity.
Qed.

Lemma scan_schedule_subset (full : bool) (v : source_view) (c : caches)
  (cam : option string) (p : string) :
  p ∈ fst (scan_for_new_files full v c cam) ->
  p ∈ fst (sorted_files full v c)
  /\ (fst (sorted_files full v c) <> [] ->
      Spec.has_camera_component p = true).
Proof.
  unfold scan_for_new_files.
  destruct (sorted_files full v c) as [files c'] eqn:E. simpl.
  destruct files as [|f files]; simpl; [by intros ?%elem_of_nil|].
  intros Hp%organize_subset. destruct Hp as [Hp Hc]. by split.
Qed.

Lemma scan_caches (full : bool) (v : source_view) (c : caches)
  (cam : option string) :
  snd (scan_for_new_files full v c cam) = snd (sorted_files full v c).
Proof.
  unfold scan_for_new_files. by destruct (sorted_files full v c).
Qed.

(** X13. Every scheduled file is pending, not processed, and lies in a camera
    folder. *)
Theorem scheduled_files_are_pending (full : bool) (v : source_view)
  (c : caches) (cam : option string) :
  let r := scan_for_new_files full v c cam in
  Forall (fun p => p ∈ scanned_files_cache (snd r)
                   /\ (p ∉ processed_files_cache c)
                   /\ Spec.has_camera_component p = true)
    (fst r).
Proof.
  cbv zeta. apply Forall_forall. intros p Hp.
  destruct (scan_schedule_subset _ _ _ _ _ Hp) as [Hs Hc].
  destruct (sorted_files_unprocessed _ _ _ _ Hs) as [Hn Hin].
  rewrite scan_caches. repeat split; [exact Hin | exact Hn |].
  apply Hc. intros E. rewrite E in Hs. by apply elem_of_nil in Hs.
Qed.

Lemma run_excludes_processed (p : string) (ops : list op) : forall c,
  p ∈ processed_files_cache c ->
  Forall (fun schedule => p ∉ schedule) (fst (run ops c)).
Proof.
  induction ops as [|o ops IH]; intros c Hp; simpl; [constructor|].
  destruct o as [q | full v cam].
  - apply IH. simpl. apply elem_of_union. by right.
  - destruct (scan_for_new_files full v c cam) as [schedule c'] eqn:E.
    specialize (IH c'). destruct (run ops c') as [schedules final]. simpl.
    constructor.
    + intros Hin.
      assert (Hin' : p ∈ fst (scan_for_new_files full v c cam)) by (by rewrite E).
      apply scan_schedule_subset in Hin' as [Hs _].
      apply sorted_files_unprocessed in Hs as [Hn _]. done.
    + apply IH.
      assert (Hc' : c' = snd (scan_for_new_files full v c cam)) by (by rewrite E).
      rewrite Hc', scan_caches, sorted_files_processed. exact Hp.
Qed.

(** X14. Once a file is marked processed, no later scan of the run schedules
    it again, whatever the scans see. *)
Theorem processed_file_is_never_rescheduled (p : string) (ops : list op)
  (c : caches) :
  Forall (fun schedule => p ∉ schedule)
    (fst (run ops (mark_file_as_processed p c))).
Proof.
  apply run_excludes_processed. simpl. apply elem_of_union. left.
  by apply elem_of_singleton.
Qed.

Lemma sorted_files_disjoint (full : bool) (v : source_view) (c : caches) :
  scanned_files_cache c ## processed_files_cache c ->
  scanned_files_cache (snd (sorted_files full v c)) ## processed_files_cache c.
Proof.
  intros Hd.
  assert (Hfull : scanned_files_cache (snd (_full_directory_scan v c))
                  ## processed_files_cache c).
  { simpl. intros p Hp%elem_of_list_to_set Hq.
    by apply elem_of_unprocessed in Hp as (_ & ? & _). }
  unfold sorted_files. destruct full; [exact Hfull|].
  unfold _incremental_scan. destruct (listing v) as [candidates|]; [|exact Hfull].
  simpl. intros p Hp Hq. apply check_candidates_spec in Hp as [Hp | (_ & Hp & _)].
  - exact (Hd p Hp Hq).
  - exact (Hp Hq).
Qed.

Lemma run_invariant (ops : list op) : forall c,
  scanned_files_cache c ## processed_files_cache c ->
  let final := snd (run ops c) in
  scanned_files_cache final ## processed_files_cache final
  /\ (forall p, p ∈ processed_files_cache final
                <-> p ∈ processed_files_cache c \/ In (Mark p) ops).
Proof.
  induction ops as [|o ops IH]; intros c Hd; simpl.
  - split; [exact Hd | tauto].
  - destruct o as [q | full v cam].
    + destruct (IH (mark_file_as_processed q c)) as [H1 H2].
      { simpl. intros p Hp Hq.
        apply elem_of_union in Hq as [Hq%elem_of_singleton | Hq].
        - subst p. case_bool_decide as Hin; [|done].
          apply elem_of_difference in Hp as [_ Hp]. apply Hp.
          by apply elem_of_singleton.
        - apply (Hd p); [|done]. case_bool_decide; [|done].
          by apply elem_of_difference in Hp as [? _]. }
      split; [exact H1|]. intros p. rewrite H2. simpl.
      rewrite elem_of_union, elem_of_singleton. split.
      * intros [[-> | H] | H]; auto.
      * intros [H | [[= ->] | H]]; auto.
    + destruct (scan_for_new_files full v c cam) as [schedule c'] eqn:E.
      assert (Hc' : c' = snd (sorted_files full v c)).
      { rewrite <- (scan_caches full v c cam). by rewrite E. }
      destruct (IH c') as [H1 H2].
      { rewrite Hc', sorted_files_processed. by apply sorted_files_disjoint. }
      destruct (run ops c') as [schedules final]. simpl in *.
      split; [exact H1|]. intros p. rewrite H2, Hc', sorted_files_processed.
      split; [intros [H | H]; auto | intros [H | [H | H]]; [auto | discriminate | auto]].
Qed.

(** X15. The two caches never overlap, and the processed cache holds exactly
    the files marked so far. *)
Theorem caches_stay_disjoint (ops : list op) :
  let final := snd (run ops initial) in
  scanned_files_cache final ## processed_files_cache final
  /\ (forall p, p ∈ processed_files_cache final <-> In (Mark p) ops).
Proof.
  destruct (run_invariant ops initial) as [H1 H2].
  { intros p Hp. by apply not_elem_of_empty in Hp. }
  cbv zeta in *. split; [exact H1|]. intros p. rewrite H2. simpl.
  split; [intros [H | H]; [by apply not_elem_of_empty in H | exact H] | auto].
Qed.

(** X16. An incremental scan right after a full scan of the same tree
    changes nothing. *)
Theorem incremental_after_full_is_stable (v : source_view) (c : caches)
  (candidates : list string) :
  listing v = Some candidates ->
  (forall p, p ∈ candidates -> p ∈ walk v) ->
  NoDup (walk v) ->
  _incremental_scan v (snd (_full_directory_scan v c))
  = _full_directory_scan v c.
Proof.
  intros Hl Hsub Hnd. unfold _incremental_scan. rewrite Hl. simpl.
  assert (Hset : foldl (check_candidate v (processed_files_cache c))
                   (list_to_set (unprocessed v c)) candidates
                 = list_to_set (unprocessed v c)).
  { apply set_eq. intros p. rewrite check_candidates_spec, elem_of_list_to_set.
    split; [|auto]. intros [H | (H1 & H2 & H3)]; [done|].
    apply elem_of_unprocessed. auto. }
  rewrite Hset. unfold _full_directory_scan. cbv zeta. f_equal.
  apply (Sorted_unique String.le).
  - apply Sorted_merge_sort; apply _.
  - apply Sorted_merge_sort; apply _.
  - rewrite !merge_sort_Permutation. apply NoDup_Permutation.
    + apply NoDup_elements.
    + unfold unprocessed. by apply NoDup_filter.
    + intros p. rewrite elem_of_elements, elem_of_filter, elem_of_list_to_set.
      rewrite elem_of_unprocessed. tauto.
Qed.

Lemma incremental_scan_pending_witness :
  let files := fst (_incremental_scan Links.sample_view initial) in
  StronglySorted String.le files
  /\ NoDup files
  /\ (forall p,
        p ∈ files
        <-> (p ∉ processed_files_cache initial)
            /\ (p ∈ scanned_files_cache initial
                \/ (p ∈ [Links.second_recording]
                    /\ output_exists Links.sample_view p = false))).
Proof.
  apply (incremental_scan_pending Links.sample_view initial
           [Links.second_recording]).
  reflexivity.
Defined.

Lemma incremental_after_full_is_stable_witness :
  _incremental_scan Links.sample_view
    (snd (_full_directory_scan Links.sample_view initial))
  = _full_directory_scan Links.sample_view initial.
Proof.
  apply (incremental_after_full_is_stable Links.sample_view initial
           [Links.second_recording]).
  - reflexivity.
  - intros p Hp. apply list_elem_of_singleton in Hp as ->. right. left.
  - apply (bool_decide_unpack _). vm_compute. exact I.
Defined.

End IngestProperties.

(* ===================================================================== *)
(** * Properties of the loop over the schedule *)
(* ===================================================================== *)

Section OrchestratorProperties.
Import Orchestrator Links.

Variables auto_scan_mode auto_delete_mode : bool.
Variable rs : nat.

Local Abbreviation loop := (file_loop auto_scan_mode auto_delete_mode rs).

Lemma delete_cases (ad : bool) (p : string) (fs : gset string)
  (e : Delete.delete_env) :
  Delete.safe_delete_original_file ad p fs e = (false, fs)
  \/ (Delete.safe_delete_original_file ad p fs e = (true, fs ∖ {[ p ]})
      /\ ad = true /\ PyText.is_dav p = true /\ p ∈ fs
      /\ Delete.getsize_raises e = false /\ Delete.remove e = Delete.Removes).
Proof.
  unfold Delete.safe_delete_original_file.
  destruct ad; simpl; [|by left].
  destruct (PyText.is_dav p); simpl; [|by left].
  destruct (bool_decide_reflect (p ∈ fs)); simpl; [|by left].
  destruct (Delete.getsize_raises e); simpl; [by left|].
  destruct (Delete.remove e); [right | by left | by left]. done.
Qed.

Lemma mark_processed_elem (p q : string) (c : Ingest.caches) :
  q ∈ Ingest.processed_files_cache (Ingest.mark_file_as_processed p c)
  <-> q = p \/ q ∈ Ingest.processed_files_cache c.
Proof. simpl. by rewrite elem_of_union, elem_of_singleton. Qed.

Local Ltac lift H :=
  cbv zeta;
  match goal with
  | |- context [file_loop _ _ _ ?s _] => apply (H s)
  | |- context [(FatalError, ?s)] => apply (H s)
  end.

Lemma file_loop_effects (items : list item) : forall st,
  let st' := snd (loop st items) in
  (forall p, p ∈ Ingest.processed_files_cache (caches st) ->
             p ∈ Ingest.processed_files_cache (caches st'))
  /\ (forall p, p ∈ Ingest.processed_files_cache (caches st') ->
        p ∈ Ingest.processed_files_cache (caches st)
        \/ exists it, it ∈ items /\ input_path it = p /\ marking (result it))
  /\ (forall p, p ∈ source_files st' -> p ∈ source_files st)
  /\ (forall p, p ∈ source_files st -> p ∉ source_files st' ->
        auto_delete_mode = true /\ PyText.is_dav p = true
        /\ p ∈ Ingest.processed_files_cache (caches st')
        /\ exists it, it ∈ items /\ input_path it = p /\ result it = Verified).
Proof.
  induction items as [|it items IH]; intros st; cbn [file_loop].
  - simpl. split; [auto|]. split; [auto|]. split; [auto|]. intros p H1 H2. done.
  - destruct (stop_set it);
      [simpl; split; [auto|]; split; [auto|]; split; [auto|];
       intros p H1 H2; done|].
    assert (Hlift : forall st1,
      (forall p, p ∈ Ingest.processed_files_cache (caches st) ->
                 p ∈ Ingest.processed_files_cache (caches st1)) ->
      (forall p, p ∈ Ingest.processed_files_cache (caches st1) ->
                 p ∈ Ingest.processed_files_cache (caches st)
                 \/ (input_path it = p /\ marking (result it))) ->
      (forall p, p ∈ source_files st1 -> p ∈ source_files st) ->
      (forall p, p ∈ source_files st -> p ∉ source_files st1 ->
                 auto_delete_mode = true /\ PyText.is_dav p = true
                 /\ p ∈ Ingest.processed_files_cache (caches st1)
                 /\ input_path it = p /\ result it = Verified) ->
      forall r, (r = loop st1 items \/ exists e, r = (e, st1)) ->
      let st' := snd r in
      (forall p, p ∈ Ingest.processed_files_cache (caches st) ->
                 p ∈ Ingest.processed_files_cache (caches st'))
      /\ (forall p, p ∈ Ingest.processed_files_cache (caches st') ->
            p ∈ Ingest.processed_files_cache (caches st)
            \/ exists it0, it0 ∈ it :: items /\ input_path it0 = p
                           /\ marking (result it0))
      /\ (forall p, p ∈ source_files st' -> p ∈ source_files st)
      /\ (forall p, p ∈ source_files st -> p ∉ source_files st' ->
            auto_delete_mode = true /\ PyText.is_dav p = true
            /\ p ∈ Ingest.processed_files_cache (caches st')
            /\ exists it0, it0 ∈ it :: items /\ input_path it0 = p
                           /\ result it0 = Verified)).
    { intros st1 A1 A2 A3 A4 r Hr.
      assert (Hhere : forall p, input_path it = p -> marking (result it) ->
                exists it0, it0 ∈ it :: items /\ input_path it0 = p
                            /\ marking (result it0)).
      { intros p Hp Hm. exists it. split; [left | done]. }
      destruct Hr as [-> | [e ->]].
      - destruct (IH st1) as (B1 & B2 & B3 & B4). cbv zeta in *.
        split; [auto|]. split; [|split].
        + intros p Hp. destruct (B2 p Hp) as [Hq | (it0 & Hin & Hp0 & Hm)].
          * destruct (A2 p Hq) as [? | [? ?]]; auto.
          * right. exists it0. split; [by right | done].
        + auto.
        + intros p Hp Hn. destruct (decide (p ∈ source_files st1)) as [H1 | H1].
          * destruct (B4 p H1 Hn) as (? & ? & ? & it0 & Hin & ? & ?).
            repeat split; auto. exists it0. split; [by right | done].
          * destruct (A4 p Hp H1) as (? & ? & ? & ? & ?).
            repeat split; auto. exists it. split; [left | done].
      - simpl. split; [auto|]. split; [|split].
        + intros p Hp. destruct (A2 p Hp) as [? | [? ?]]; auto.
        + auto.
        + intros p Hp Hn. destruct (A4 p Hp Hn) as (? & ? & ? & ? & ?).
          repeat split; auto. exists it. split; [left | done]. }
    destruct (result it) eqn:Hres.
    + (* OutputExists *)
      lift Hlift; simpl.
      * intros p Hp. apply mark_processed_elem. by right.
      * intros p [-> | Hp]%mark_processed_elem; [right | by left].
        split; [done | by left].
      * auto.
      * intros p H1 H2. done.
      * destruct (round_complete _ _ _); [right; by eexists | by left].
    + (* SetupRaises *)
      lift Hlift; simpl; auto.
      * intros p H1 H2. done.
      * right. by eexists.
    + (* Verified *)
      set (fs := if auto_delete_mode
                 then snd (Delete.safe_delete_original_file auto_delete_mode
                             (input_path it) (source_files st) (delete_env it))
                 else source_files st).
      assert (Hfs : fs = source_files st
                    \/ (fs = source_files st ∖ {[ input_path it ]}
                        /\ auto_delete_mode = true
                        /\ PyText.is_dav (input_path it) = true)).
      { subst fs. destruct auto_delete_mode eqn:Had; [|by left].
        destruct (delete_cases true (input_path it) (source_files st)
                    (delete_env it)) as [-> | (-> & _ & ? & _)]; [by left|].
        right. done. }
      lift Hlift; simpl.
      * intros p Hp. apply mark_processed_elem. by right.
      * intros p [-> | Hp]%mark_processed_elem; [right | by left].
        split; [done | right; by left].
      * intros p Hp. destruct Hfs as [-> | [-> _]]; [done|].
        by apply elem_of_difference in Hp as [? _].
      * intros p H1 H2. destruct Hfs as [Hfs | (Hfs & Had & Hdav)];
          rewrite Hfs in H2; [done|].
        assert (p = input_path it) as ->.
        { destruct (decide (p = input_path it)); [done|]. exfalso. apply H2.
          apply elem_of_difference. split; [done|].
          by intros ?%elem_of_singleton. }
        repeat split; auto. apply mark_processed_elem. by left.
      * destruct (round_complete _ _ _); [right; by eexists | by left].
    + (* Unverified *)
      lift Hlift; simpl; auto.
      intros p H1 H2. done.
    + (* Caught *)
      lift Hlift; simpl.
      * intros p Hp. destruct corrupt; [|done].
        apply mark_processed_elem. by right.
      * intros p Hp. destruct corrupt; [|by left].
        apply mark_processed_elem in Hp as [-> | Hp]; [right | by left].
        split; [done | right; by right].
      * auto.
      * intros p H1 H2. done.
      * destruct (round_complete _ _ _); [right; by eexists | by left].
Qed.


(** The loop stops at the first file from position [rs] on that reaches
    the round test; files whose copy is not verified pass without it. *)
Lemma file_loop_bound (items : list item) : forall st,
  auto_scan_mode = true ->
  Forall (fun it => result it <> Unverified) items ->
  (files_in_current_batch st < rs \/ files_in_current_batch st = 0)%nat ->
  (files_in_current_batch (snd (loop st items)) <= rs `max` 1)%nat.
Proof.
  induction items as [|it items IH]; intros st Has Hun Hb; cbn [file_loop].
  - simpl. lia.
  - destruct (stop_set it); [simpl; lia|].
    apply Forall_cons in Hun as [Hit Hrest].
    assert (Hchk : forall c cam fs,
      (files_in_current_batch
         (snd (if round_complete auto_scan_mode rs (S (files_in_current_batch st))
               then (RoundComplete,
                     mk_loop_state (S (files_in_current_batch st)) c cam fs)
               else loop (mk_loop_state (S (files_in_current_batch st)) c cam fs)
                      items))
       <= rs `max` 1)%nat).
    { intros c cam fs.
      assert (Hrc : round_complete auto_scan_mode rs (S (files_in_current_batch st))
                    = (rs <=? S (files_in_current_batch st))%nat)
        by (unfold round_complete; by rewrite Has).
      rewrite Hrc.
      destruct (Nat.leb_spec rs (S (files_in_current_batch st))); simpl; [lia|].
      apply IH; [done | done | simpl; lia]. }
    destruct (result it); cbv zeta; try apply Hchk; [simpl; lia | done].
Qed.

(** X17. The loop handles an initial part of the schedule, one count per
    file, and its ending tells where it stopped: at the end of the
    schedule, before a file at which the stop event is set, after a file
    whose preparation raised, or, in auto-scan mode, after a file that
    reached the round test with the round full. The round test is reached
    by a skipped file, by a verified copy and by a failure caught by the
    handler, which is also the way of a failed copy of an empty source
    ([after_encode]); it is not reached on the way [Unverified]. *)
Theorem ending_tells_where_the_loop_stopped (items : list item) : forall st,
  exists handled rest,
    items = handled ++ rest
    /\ files_in_current_batch (snd (loop st items))
       = (files_in_current_batch st + length handled)%nat
    /\ Forall (fun it => stop_set it = false) handled
    /\ match fst (loop st items) with
       | Exhausted => rest = []
       | Stopped => exists it rest', rest = it :: rest' /\ stop_set it = true
       | FatalError =>
           exists h it, handled = h ++ [it] /\ result it = SetupRaises
       | RoundComplete =>
           auto_scan_mode = true
           /\ (rs <= files_in_current_batch (snd (loop st items)))%nat
           /\ exists h it, handled = h ++ [it]
                           /\ result it <> Unverified
                           /\ result it <> SetupRaises
       end.
Proof.
  induction items as [|it items IH]; intros st; cbn [file_loop].
  - exists [], []. simpl. repeat split; [lia | constructor].
  - destruct (stop_set it) eqn:Hstop.
    { exists [], (it :: items). simpl. repeat split; [lia | constructor |].
      by exists it, items. }
    assert (Hcont : forall st1,
      files_in_current_batch st1 = S (files_in_current_batch st) ->
      exists handled rest,
        it :: items = handled ++ rest
        /\ files_in_current_batch (snd (loop st1 items))
           = (files_in_current_batch st + length handled)%nat
        /\ Forall (fun it => stop_set it = false) handled
        /\ match fst (loop st1 items) with
           | Exhausted => rest = []
           | Stopped => exists it rest', rest = it :: rest' /\ stop_set it = true
           | FatalError =>
               exists h it, handled = h ++ [it] /\ result it = SetupRaises
           | RoundComplete =>
               auto_scan_mode = true
               /\ (rs <= files_in_current_batch (snd (loop st1 items)))%nat
               /\ exists h it, handled = h ++ [it]
                               /\ result it <> Unverified
                               /\ result it <> SetupRaises
           end).
    { intros st1 Hb. destruct (IH st1) as (handled & rest & Hitems & Hn & Hf & He).
      exists (it :: handled), rest. simpl. split; [by f_equal|].
      split; [lia|]. split; [by constructor|].
      destruct (fst (loop st1 items)); try done.
      - destruct He as (? & ? & h & it0 & -> & ? & ?).
        split; [done|]. split; [done|]. by exists (it :: h), it0.
      - destruct He as (h & it0 & -> & ?). by exists (it :: h), it0. }
    assert (Hchk : forall c cam fs,
      result it <> Unverified -> result it <> SetupRaises ->
      let r := if round_complete auto_scan_mode rs (S (files_in_current_batch st))
               then (RoundComplete,
                     mk_loop_state (S (files_in_current_batch st)) c cam fs)
               else loop (mk_loop_state (S (files_in_current_batch st)) c cam fs)
                      items in
      exists handled rest,
        it :: items = handled ++ rest
        /\ files_in_current_batch (snd r)
           = (files_in_current_batch st + length handled)%nat
        /\ Forall (fun it => stop_set it = false) handled
        /\ match fst r with
           | Exhausted => rest = []
           | Stopped => exists it rest', rest = it :: rest' /\ stop_set it = true
           | FatalError =>
               exists h it, handled = h ++ [it] /\ result it = SetupRaises
           | RoundComplete =>
               auto_scan_mode = true
               /\ (rs <= files_in_current_batch (snd r))%nat
               /\ exists h it, handled = h ++ [it]
                               /\ result it <> Unverified
                               /\ result it <> SetupRaises
           end).
    { intros c cam fs H1 H2. cbv zeta.
      destruct (round_complete _ _ _) eqn:Hrc; [|by apply Hcont].
      unfold round_complete in Hrc. apply andb_true_iff in Hrc as [Has Hle].
      apply Nat.leb_le in Hle.
      exists [it], items. simpl. repeat split; [lia | by constructor | done | done |].
      by exists [], it. }
    destruct (result it) eqn:Hres; cbv zeta.
    + apply Hchk; rewrite ?Hres; done.
    + exists [it], items. simpl. repeat split; [lia | by constructor |].
      by exists [], it.
    + apply Hchk; rewrite ?Hres; done.
    + by apply Hcont.
    + apply Hchk; rewrite ?Hres; done.
Qed.

Lemma round_complete_reached (items : list item) : forall st,
  fst (loop st items) = RoundComplete ->
  auto_scan_mode = true
  /\ (rs <= files_in_current_batch (snd (loop st items)))%nat.
Proof.
  induction items as [|it items IH]; intros st; cbn [file_loop]; [done|].
  destruct (stop_set it); [done|].
  assert (Hchk : forall st1,
    files_in_current_batch st1 = S (files_in_current_batch st) ->
    let r := if round_complete auto_scan_mode rs (S (files_in_current_batch st))
             then (RoundComplete, st1) else loop st1 items in
    fst r = RoundComplete ->
    auto_scan_mode = true /\ (rs <= files_in_current_batch (snd r))%nat).
  { intros st1 Hb. cbv zeta.
    destruct (round_complete _ _ _) eqn:Hrc; [|apply IH].
    unfold round_complete in Hrc. apply andb_true_iff in Hrc as [Has Hle].
    apply Nat.leb_le in Hle. simpl. intros _. split; [done | lia]. }
  destruct (result it); cbv zeta;
    [by apply Hchk | done | by apply Hchk | apply IH | by apply Hchk].
Qed.

(** X18. Only verified originals are deleted: a source file that is gone
    after the loop was handled with a verified copy, has the [.dav]
    extension, is marked as processed, and auto-delete is on. *)
Theorem only_verified_originals_are_deleted (items : list item)
  (st : loop_state) (p : string) :
  p ∈ source_files st ->
  p ∉ source_files (snd (loop st items)) ->
  auto_delete_mode = true
  /\ PyText.is_dav p = true
  /\ p ∈ Ingest.processed_files_cache (caches (snd (loop st items)))
  /\ exists it, it ∈ items /\ input_path it = p /\ result it = Verified.
Proof.
  intros H1 H2. destruct (file_loop_effects items st) as (_ & _ & _ & H).
  exact (H p H1 H2).
Qed.


(** X20. After a copy that is not verified the loop goes on to the next
    file without the round test, unless the source is empty: a schedule of
    non-empty sources whose copies all fail is handled to its end,
    whatever the round size, and nothing is marked or deleted. An empty
    source takes the handler's way, [after_encode false 0], and meets the
    round test there. *)
Theorem failed_copies_skip_the_round_test (items : list item) :
  forall st,
    Forall (fun it =>
              stop_set it = false
              /\ exists input_size_bytes,
                   0 < input_size_bytes
                   /\ result it = after_encode false input_size_bytes)
      items ->
    fst (loop st items) = Exhausted
    /\ files_in_current_batch (snd (loop st items))
       = (files_in_current_batch st + length items)%nat
    /\ caches (snd (loop st items)) = caches st
    /\ source_files (snd (loop st items)) = source_files st.
Proof.
  induction items as [|it items IH]; intros st Hall; cbn [file_loop].
  - simpl. repeat split. lia.
  - apply Forall_cons in Hall as [[Hs (size & Hpos & Hr)] Hall].
    unfold after_encode in Hr. simpl in Hr.
    destruct (Z.eqb_spec size 0) as [-> | _]; [lia|].
    rewrite Hs, Hr. cbv zeta.
    destruct (IH (mk_loop_state (S (files_in_current_batch st)) (caches st)
                    (track_camera (relative_path it) (last_processed_camera st))
                    (source_files st)) Hall) as (H1 & H2 & H3 & H4).
    rewrite H1, H2, H3, H4. simpl. repeat split. lia.
Qed.

End OrchestratorProperties.

Section RoundProperties.
Import Orchestrator Links.

(** X21. In auto-scan mode, when no copy of the schedule goes unverified, a
    round that starts at count zero handles at most [round_size] files,
    and exactly that many when it ends with the round complete. *)
Theorem round_ends_within_round_size (auto_delete_mode : bool)
  (camera_order : list string) (items : list item) (st : loop_state) :
  Forall (fun it => result it <> Unverified) items ->
  files_in_current_batch st = 0%nat ->
  let r := file_loop true auto_delete_mode (round_size camera_order) st items in
  (files_in_current_batch (snd r) <= round_size camera_order)%nat
  /\ (fst r = RoundComplete ->
      files_in_current_batch (snd r) = round_size camera_order).
Proof.
  intros Hun Hb. cbv zeta.
  pose proof (file_loop_bound true auto_delete_mode (round_size camera_order)
                items st eq_refl Hun (or_intror Hb)) as Hle.
  assert (Hrs : (3 <= round_size camera_order)%nat).
  { unfold round_size. destruct camera_order; simpl; lia. }
  split; [lia|]. intros Hend.
  destruct (round_complete_reached true auto_delete_mode
              (round_size camera_order) items st Hend) as [_ Hge]. lia.
Qed.

Lemma only_verified_originals_are_deleted_witness :
  true = true
  /\ PyText.is_dav recording = true
  /\ recording
     ∈ Ingest.processed_files_cache
         (caches (snd (file_loop true true 3
                         (fresh_round {[ recording ]})
                         [sample_item Verified])))
  /\ exists it, it ∈ [sample_item Verified]
                /\ input_path it = recording /\ result it = Verified.
Proof.
  apply (only_verified_originals_are_deleted true true 3
           [sample_item Verified] (fresh_round {[ recording ]}) recording).
  - apply (bool_decide_unpack _). vm_compute. exact I.
  - apply (bool_decide_unpack _). vm_compute. exact I.
Defined.


Lemma failed_copies_skip_the_round_test_witness :
  let r := file_loop true true 3 (fresh_round {[ recording ]})
             (replicate 5 (sample_item (after_encode false 1048576))) in
  fst r = Exhausted
  /\ files_in_current_batch (snd r)
     = (files_in_current_batch (fresh_round {[ recording ]})
        + length (replicate 5 (sample_item (after_encode false 1048576))))%nat
  /\ caches (snd r) = caches (fresh_round {[ recording ]})
  /\ source_files (snd r) = source_files (fresh_round {[ recording ]}).
Proof.
  apply (failed_copies_skip_the_round_test true true 3
           (replicate 5 (sample_item (after_encode false 1048576)))
           (fresh_round {[ recording ]})).
  apply Forall_replicate. split; [reflexivity|].
  exists 1048576. split; [lia | reflexivity].
Defined.

Lemma round_ends_within_round_size_witness :
  let r := file_loop true false (round_size ["192.168.1.111"])
             (fresh_round {[ recording ]})
             (replicate 5 (sample_item OutputExists)) in
  (files_in_current_batch (snd r) <= round_size ["192.168.1.111"])%nat
  /\ (fst r = RoundComplete ->
      files_in_current_batch (snd r) = round_size ["192.168.1.111"]).
Proof.
  apply (round_ends_within_round_size false ["192.168.1.111"]
           (replicate 5 (sample_item OutputExists))
           (fresh_round {[ recording ]})).
  - repeat constructor; discriminate.
  - reflexivity.
Defined.

End RoundProperties.

(* ===================================================================== *)
(** * The rate strings of the scaler *)
(* ===================================================================== *)

Section RateStrings.
Import Tiers Spec Links.

Lemma digits_string_of_uint (d : Decimal.uint) : forall acc,
  PyStr.digits acc false (NilEmpty.string_of_uint d) = Some (read_digits acc d).
Proof.
  induction d; intros acc; cbn [NilEmpty.string_of_uint PyStr.digits read_digits];
    [reflexivity | ..];
    match goal with
    | |- context [PyStr.is_digit ?c] =>
        change (PyStr.is_digit c) with true; cbv iota
    end; rewrite IHd; reflexivity.
Qed.

Lemma digits_start (d : Decimal.uint) :
  d <> Decimal.Nil ->
  PyStr.digits 0 true (NilEmpty.string_of_uint d) = Some (read_digits 0 d).
Proof.
  destruct d; intros Hd; [done | ..];
    cbn [NilEmpty.string_of_uint PyStr.digits read_digits];
    match goal with
    | |- context [PyStr.is_digit ?c] =>
        change (PyStr.is_digit c) with true; cbv iota
    end; apply digits_string_of_uint.
Qed.

Lemma read_digits_acc (d : Decimal.uint) : forall acc : positive,
  read_digits (Z.pos acc) d = Z.pos (Pos.of_uint_acc d acc).
Proof.
  induction d; intros acc; cbn [read_digits Pos.of_uint_acc];
    [reflexivity | ..]; rewrite <- IHd; f_equal; lia.
Qed.

Lemma read_digits_of_uint (d : Decimal.uint) :
  read_digits 0 d = Z.of_N (Pos.of_uint d).
Proof.
  induction d; cbn [read_digits Pos.of_uint]; [reflexivity | exact IHd | ..];
    cbn [Z.mul Z.add Z.of_N]; apply read_digits_acc.
Qed.

Lemma read_digits_to_uint (p : positive) :
  read_digits 0 (Pos.to_uint p) = Z.pos p.
Proof. by rewrite read_digits_of_uint, DecimalPos.Unsigned.of_to. Qed.

Lemma plain_string_of_uint (d : Decimal.uint) :
  plain (NilEmpty.string_of_uint d) = true.
Proof. induction d; [reflexivity | ..]; exact IHd. Qed.

Lemma remove_k_plain (s : string) :
  plain s = true -> PyStr.remove_char "k" (String.append s "k") = s.
Proof.
  induction s as [|c r IH]; [reflexivity|]. cbn [plain].
  intros [[_ Hk]%andb_true_iff Hr]%andb_true_iff.
  apply negb_true_iff in Hk. simpl. rewrite Hk, IH by done. reflexivity.
Qed.

Lemma rstrip_plain (s : string) : plain s = true -> PyStr.rstrip s = s.
Proof.
  induction s as [|c r IH]; [reflexivity|]. cbn [plain PyStr.rstrip].
  intros [[Hs _]%andb_true_iff Hr]%andb_true_iff.
  apply negb_true_iff in Hs. rewrite IH, Hs by done. by destruct r.
Qed.

Lemma strip_plain (s : string) : plain s = true -> PyStr.strip s = s.
Proof.
  intros H. unfold PyStr.strip.
  assert (Hl : PyStr.lstrip s = s).
  { destruct s as [|c r]; [reflexivity|]. cbn [plain] in H. cbn [PyStr.lstrip].
    apply andb_true_iff in H as [[Hs _]%andb_true_iff _].
    apply negb_true_iff in Hs. by rewrite Hs. }
  rewrite Hl. by apply rstrip_plain.
Qed.

Lemma to_int_of_uint (d : Decimal.uint) :
  d <> Decimal.Nil ->
  PyStr.to_int (NilEmpty.string_of_uint d) = Some (read_digits 0 d).
Proof.
  intros Hd. unfold PyStr.to_int.
  rewrite strip_plain by apply plain_string_of_uint.
  rewrite <- (digits_start d Hd).
  destruct d; [done | ..]; reflexivity.
Qed.

(** [int(str(z))] is [z]. *)
Lemma to_int_of_int (z : Z) : PyStr.to_int (PyStr.of_int z) = Some z.
Proof.
  unfold PyStr.of_int. destruct z as [|p|p]; [reflexivity | |].
  - cbn [Z.to_int NilZero.string_of_int]. unfold NilZero.string_of_uint.
    pose proof (DecimalPos.Unsigned.to_uint_nonnil p) as Hn.
    destruct (Pos.to_uint p) eqn:E; [done | ..]; rewrite <- E in *;
      rewrite to_int_of_uint, read_digits_to_uint by done; reflexivity.
  - cbn [Z.to_int NilZero.string_of_int]. unfold NilZero.string_of_uint.
    pose proof (DecimalPos.Unsigned.to_uint_nonnil p) as Hn.
    assert (Hs : PyStr.to_int (String "-" (NilEmpty.string_of_uint (Pos.to_uint p)))
                 = Some (Z.neg p)).
    { unfold PyStr.to_int.
      rewrite (strip_plain (String "-" _))
        by (cbn [plain]; rewrite plain_string_of_uint; reflexivity).
      rewrite digits_start, read_digits_to_uint by done. reflexivity. }
    destruct (Pos.to_uint p) eqn:E; [done | ..]; rewrite <- E in *; exact Hs.
Qed.

Lemma plain_of_int (z : Z) : plain (PyStr.of_int z) = true.
Proof.
  unfold PyStr.of_int. destruct z as [|p|p]; [reflexivity | |];
    cbn [Z.to_int NilZero.string_of_int]; unfold NilZero.string_of_uint;
    destruct (Pos.to_uint p) eqn:E; try reflexivity; rewrite <- E;
    cbn [plain]; rewrite ?plain_string_of_uint; reflexivity.
Qed.

Lemma rate_value_of_int (z : Z) :
  rate_value (String.append (PyStr.of_int z) "k") = Some z.
Proof.
  unfold rate_value. rewrite remove_k_plain by apply plain_of_int.
  apply to_int_of_int.
Qed.

Lemma scaled_reads_back (value : Z) (m : F64.float) (s : string) :
  scaled value m = Some s -> rate_value s = Some (times value m).
Proof.
  unfold scaled, times.
  destruct (F64.to_int _); [|discriminate..].
  intros [= <-]. apply rate_value_of_int.
Qed.

(** X22. The rate bounds the scaler writes read back as what it computed: for
    every settings dictionary on which it returns, the new bounds are
    strings whose value is the old value times the band factor, rounded
    as a float and truncated, and every other field is kept. *)
Theorem scaled_rates_read_back (settings settings' : tier)
  (info : video_info) :
  adjust_vbv_for_resolution settings info = Some settings' ->
  exists maxrate_value bufsize_value,
    rate_value (vbv_maxrate settings) = Some maxrate_value
    /\ rate_value (vbv_bufsize settings) = Some bufsize_value
    /\ rate_value (vbv_maxrate settings')
       = Some (times maxrate_value (multiplier (pixel_count info)))
    /\ rate_value (vbv_bufsize settings')
       = Some (times bufsize_value (multiplier (pixel_count info)))
    /\ crf settings' = crf settings
    /\ preset settings' = preset settings
    /\ audio_bitrate settings' = audio_bitrate settings.
Proof.
  unfold adjust_vbv_for_resolution, apply_multiplier. intros H.
  destruct (rate_value (vbv_maxrate settings)) as [mv|]; [|discriminate].
  destruct (rate_value (vbv_bufsize settings)) as [bv|]; [|discriminate].
  destruct (scaled mv _) as [mr|] eqn:Hmr; [|discriminate].
  destruct (scaled bv _) as [bs|] eqn:Hbs; [|discriminate].
  injection H as <-. exists mv, bv. simpl.
  repeat split; by apply scaled_reads_back.
Qed.

Lemma scaled_rates_read_back_witness :
  exists maxrate_value bufsize_value,
    rate_value (vbv_maxrate t_conservative) = Some maxrate_value
    /\ rate_value (vbv_bufsize t_conservative) = Some bufsize_value
    /\ rate_value (vbv_maxrate t_conservative)
       = Some (times maxrate_value
                 (multiplier (pixel_count (info_with_bitrate 3000))))
    /\ rate_value (vbv_bufsize t_conservative)
       = Some (times bufsize_value
                 (multiplier (pixel_count (info_with_bitrate 3000))))
    /\ crf t_conservative = crf t_conservative
    /\ preset t_conservative = preset t_conservative
    /\ audio_bitrate t_conservative = audio_bitrate t_conservative.
Proof.
  apply (scaled_rates_read_back t_conservative t_conservative
           (info_with_bitrate 3000)).
  vm_compute. reflexivity.
Defined.

End RateStrings.

(* ===================================================================== *)
(** * The stall detector on an encoder that keeps reporting *)
(* ===================================================================== *)

Section SupervisorPacing.
Import Supervisor Spec Links.

Lemma timely_read_loop (duration : F64.float) (events : list event) :
  forall st,
    timely duration (last_progress_time st) events = true ->
    exists st',
      read_loop duration st events = StreamOpen st'
      /\ calls (w st') = calls (w st).
Proof.
  induction events as [|e rest IH]; intros st Ht; [by exists st|].
  destruct e as [stop ct text | | | rc]; cbn [timely] in Ht; cbn [read_loop on_event].
  - apply andb_true_iff in Ht as [[Hstop Hgt]%andb_true_iff Ht].
    apply negb_true_iff in Hstop, Hgt. rewrite Hstop, Hgt.
    destruct (parse_line duration text); [| |discriminate].
    + exact (IH (mk_loop_state ct (w st)) Ht).
    + exact (IH st Ht).
  - exact (IH (mk_loop_state (last_progress_time st) (throttle_suspend (w st))) Ht).
  - exact (IH (mk_loop_state (last_progress_time st) (throttle_resume (w st))) Ht).
  - exact (IH (mk_loop_state (last_progress_time st) (encoder_exit rc (w st))) Ht).
Qed.

(** X23. An encoder that is not stopped by the user and whose lines each
    arrive within 60 s of the last progress is never killed: the loop
    reads all its lines without a call, and a run that returns ends by
    the exit code. *)
Theorem timely_encoder_is_not_killed (duration start_time : F64.float)
  (events : list event) (returncode : Z) (thread_alive : bool) :
  timely duration start_time events = true ->
  (exists st',
     read_loop duration (started start_time) events = StreamOpen st'
     /\ calls (w st') = [])
  /\ match run_ffmpeg duration start_time events returncode thread_alive with
     | Some (o, w1) =>
         (o = Completed \/ exists rc, o = Failed rc) /\ Kill ∉ calls w1
     | None => True
     end.
Proof.
  intros Ht.
  destruct (timely_read_loop duration events (started start_time) Ht)
    as (st' & Hr & Hc).
  split; [by exists st'|].
  unfold run_ffmpeg. fold (started start_time). rewrite Hr.
  assert (Hk : Kill ∉ calls (cleanup thread_alive (wait returncode (w st')))).
  { destruct (cleanup_spec thread_alive (wait returncode (w st'))) as [Hcs _].
    cbv zeta in Hcs. rewrite Hcs, (wait_dead returncode (w st')).
    unfold wait, encoder_exit. simpl. rewrite Hc. simpl.
    destruct thread_alive; intros H;
      repeat (apply elem_of_cons in H as [H | H]; [discriminate|]);
      by apply elem_of_nil in H. }
  destruct (proc (w st')); try exact I; cbv zeta;
    destruct (_ =? 0); (split; [|exact Hk]); eauto.
Qed.

Lemma timely_encoder_is_not_killed_witness :
  (exists st',
     read_loop (F64.of_Z 120) (started (F64.of_Z 0))
       [ Line false (F64.of_Z 30) "out_time_ms=1000000";
         Line false (F64.of_Z 80) "out_time_ms=2000000" ]
     = StreamOpen st'
     /\ calls (w st') = [])
  /\ match run_ffmpeg (F64.of_Z 120) (F64.of_Z 0)
             [ Line false (F64.of_Z 30) "out_time_ms=1000000";
               Line false (F64.of_Z 80) "out_time_ms=2000000" ] 0 true with
     | Some (o, w1) =>
         (o = Completed \/ exists rc, o = Failed rc) /\ Kill ∉ calls w1
     | None => True
     end.
Proof.
  apply (timely_encoder_is_not_killed (F64.of_Z 120) (F64.of_Z 0)
           [ Line false (F64.of_Z 30) "out_time_ms=1000000";
             Line false (F64.of_Z 80) "out_time_ms=2000000" ] 0 true).
  vm_compute. reflexivity.
Defined.

End SupervisorPacing.
